(** * MetaMask service: a shallow embedding and its specification

  The repository holds two variants of one Angular service:
  - [src/app/metamask/metamask.service.ts], the reactive service
    (module [Service] below);
  - an older, non-reactive service kept next to it (module [Legacy]).

  Promises are modelled by their outcome, external collaborators (the
  wallet extension and the backend) by the replies they give, and the
  service object by an explicit state that every operation threads. *)

From Stdlib Require Import ZArith List String Ascii Bool Lia QArith.
From Stdlib Require Import Floats.SpecFloat.
Import ListNotations.
Local Open Scope string_scope.
Local Open Scope Z_scope.

(** ** JavaScript values, exceptions and promise outcomes *)

Module JS.

(** IEEE 754 binary64, the JavaScript [number] type. *)
Definition prec : Z := 53.
Definition emax : Z := 1024.
Definition number : Type := spec_float.

Definition number_of_Z (z : Z) : number := binary_normalize prec emax z 0 false.
Definition number_mul : number -> number -> number := SFmul prec emax.
Definition number_eqb : number -> number -> bool := SFeqb.

(** The integer a finite, integral number denotes. *)
Definition integer_of_number (x : number) : option Z :=
  match x with
  | S754_zero _ => Some 0
  | S754_finite sign m e =>
      if 0 <=? e then Some ((if sign then -1 else 1) * (Z.pos m * 2 ^ e))
      else None
  | _ => None
  end.

Inductive value : Type :=
| Undefined
| Null
| Bool (b : bool)
| Num (x : number)
| Str (s : string).

(** [v === true] *)
Definition strictly_true (v : value) : bool :=
  match v with
  | Bool true => true
  | _ => false
  end.

(** What a [throw] carries, or what a rejected promise is rejected with. *)
Inductive thrown : Type :=
| Error (message : string)        (* [Error("...")], [new Error("...")] *)
| TypeError (message : string)    (* property read on [undefined] or [null] *)
| Thrown_string (s : string)      (* [throw "..."] *)
| Wallet_error (code : Z) (message : string)   (* raised by the wallet extension *)
| Http_error (status : Z) (message : string).  (* raised by the HTTP client *)

(** String concatenation with an exception, [".." + err]; an error of a
    collaborator is taken to print as an [Error] object does. *)
Definition thrown_to_string (e : thrown) : string :=
  match e with
  | Error m => "Error: " ++ m
  | TypeError m => "TypeError: " ++ m
  | Thrown_string s => s
  | Wallet_error _ m => "Error: " ++ m
  | Http_error _ m => "HttpErrorResponse: " ++ m
  end.

(** The two values that have no property to read. *)
Inductive nullish : Type := null | undefined.

Definition nullish_name (n : nullish) : string :=
  match n with
  | null => "null"
  | undefined => "undefined"
  end.

(** What a property read on [null] or [undefined] throws. *)
Definition cannot_read (base : nullish) (property : string) : thrown :=
  TypeError ("Cannot read properties of " ++ nullish_name base
             ++ " (reading '" ++ property ++ "')").

(** What an HTTP call resolves with: [null] for an empty response,
    [undefined] when the stream ends without one, or a body. *)
Inductive response (A : Type) : Type :=
| Absent (n : nullish)
| Body (a : A).
Arguments Absent {A} n.
Arguments Body {A} a.

(** How a promise settles. *)
Inductive outcome (A : Type) : Type :=
| Resolved (a : A)
| Rejected (e : thrown).
Arguments Resolved {A} a.
Arguments Rejected {A} e.

Definition is_resolved {A} (r : outcome A) : bool :=
  match r with
  | Resolved _ => true
  | Rejected _ => false
  end.

Definition failure {A} (r : outcome A) : option thrown :=
  match r with
  | Resolved _ => None
  | Rejected e => Some e
  end.

(** [haystack.includes(needle)] *)
Fixpoint includes (needle haystack : string) : bool :=
  prefix needle haystack
  || match haystack with
     | EmptyString => false
     | String _ rest => includes needle rest
     end.

(** Asynchronous functions over a state [S]: a state and exception monad.
    A run ends with the settled promise and the state it leaves. *)
Definition M (S A : Type) : Type := S -> outcome A * S.

Definition ret {S A} (a : A) : M S A := fun s => (Resolved a, s).
Definition throw {S A} (e : thrown) : M S A := fun s => (Rejected e, s).
Definition bind {S A B} (m : M S A) (k : A -> M S B) : M S B :=
  fun s =>
    match m s with
    | (Resolved a, s') => k a s'
    | (Rejected e, s') => (Rejected e, s')
    end.
Definition gets {S A} (f : S -> A) : M S A := fun s => (Resolved (f s), s).
Definition modify {S} (f : S -> S) : M S unit := fun s => (Resolved tt, f s).

(** [try { body } catch (err) { handler }] *)
Definition try_catch {S A} (body : M S A) (handler : thrown -> M S A) : M S A :=
  fun s =>
    match body s with
    | (Resolved a, s') => (Resolved a, s')
    | (Rejected e, s') => handler e s'
    end.

Declare Scope js_scope.
Delimit Scope js_scope with js.
Notation "x <- m ;; k" := (bind m (fun x => k))
  (at level 61, m at next level, right associativity) : js_scope.
Notation "m ;; k" := (bind m (fun _ => k))
  (at level 61, right associativity) : js_scope.

End JS.

(** ** The reactive service, [metamask.service.ts] *)

Module Service.
Import JS.

(** [ethers.providers.Network]; chain ids are integers. *)
Record Network : Type := { chainId : Z; name : string }.

(** [interface Nonce { nonce?: string }] *)
Record Nonce : Type := { nonce : option string }.

(** Calls that leave the service: to the wallet (through ethers) and to
    the backend (through the HTTP client). *)
Inductive call : Type :=
| eth_requestAccounts
| listAccounts
| getNetwork
| signMessage (message : string)
| getAddress
| sendTransaction (to value : string)
| getTransactionReceipt (txHash : string)
| GET_generatenonce
| GET_verify_message (message address signature : string).

(** Everything the service does that an observer can see, in order. *)
Inductive effect : Type :=
| network_next (n : option Network)      (* [_network$.next] *)
| isAuthenticated_next (b : bool)        (* [_isAuthenticated$.next] *)
| account_next (a : option string)       (* [_account$.next] *)
| console_log (text : string)
| console_warn (text : string)
| ethereum_on (eventName : string)
| request (c : call)
| settled (c : call) (failure : option thrown).

(** The fields of [MetaMaskService]; [provider] records whether
    [this.provider] is defined. *)
Record state : Type := {
  provider : bool;
  _network : option Network;
  _isAuthenticated : bool;
  _account : option string;
  trace : list effect
}.

Definition record (e : effect) (s : state) : state :=
  {| provider := provider s; _network := _network s;
     _isAuthenticated := _isAuthenticated s; _account := _account s;
     trace := trace s ++ [e] |}.

(** Getters and setters. Every setter stores the value and pushes it
    into the matching [BehaviorSubject]. *)
Definition network (s : state) : option Network := _network s.
Definition account (s : state) : option string := _account s.
Definition isAuthenticated (s : state) : bool := _isAuthenticated s.

Definition set_network (n : option Network) (s : state) : state :=
  record (network_next n)
    {| provider := provider s; _network := n;
       _isAuthenticated := _isAuthenticated s; _account := _account s;
       trace := trace s |}.

Definition set_account (a : option string) (s : state) : state :=
  record (account_next a)
    {| provider := provider s; _network := _network s;
       _isAuthenticated := _isAuthenticated s; _account := a;
       trace := trace s |}.

Definition set_isAuthenticated (b : bool) (s : state) : state :=
  record (isAuthenticated_next b)
    {| provider := provider s; _network := _network s;
       _isAuthenticated := b; _account := _account s;
       trace := trace s |}.

(** [this.account !== undefined && this.account !== null] *)
Definition isConnected (s : state) : bool :=
  match account s with
  | Some _ => true
  | None => false
  end.

(** *** Event handlers *)

Definition onAccountsChanged (accounts : option (list string)) (s : state) : state :=
  let s := record (console_log "onAccountsChanged") s in
  let s :=
    match accounts with
    | None | Some [] => set_account None s
    | Some ((account :: _) as accounts) =>
        let s :=
          if (1 <? List.length accounts)%nat
          then record (console_warn "More than one account connected") s
          else s in
        set_account (Some account) s
    end in
  set_isAuthenticated false s.

(** [onChainChanged] up to the point where it leaves a continuation on
    the promise of [getNetwork]. The chain id it receives is only logged. *)
Definition onChainChanged (chainId : string) (s : state) : state :=
  let s := record (console_log "onChainChanged") s in
  if provider s then record (request getNetwork) s else s.

(** The continuation [.then((network) => (this.network = network))]; a
    rejection has no handler. *)
Definition getNetwork_then (r : outcome Network) (s : state) : state :=
  let s := record (settled getNetwork (failure r)) s in
  match r with
  | Resolved network => set_network (Some network) s
  | Rejected _ => s
  end.

(** *** Asynchronous operations *)

Definition M : Type -> Type := JS.M state.

Local Open Scope js_scope.

(** [logout = async () => { this.isAuthenticated = false; }] *)
Definition logout : M unit := modify (set_isAuthenticated false).

(** What can happen while an operation is suspended on an [await]: the
    wallet fires one of its two events, a pending [getNetwork] of the
    chain handler settles, or the user logs out. A second login started
    meanwhile is not among them: the service does not guard against it and
    leaves it to its callers to run one login at a time. *)
Inductive event : Type :=
| accountsChanged (accounts : option (list string))
| chainChanged (chainId : string)
| getNetwork_settled (r : outcome Network)
| logout_called.

Definition handle (ev : event) (s : state) : state :=
  match ev with
  | accountsChanged accounts => onAccountsChanged accounts s
  | chainChanged chainId => onChainChanged chainId s
  | getNetwork_settled r => getNetwork_then r s
  | logout_called => snd (logout s)
  end.

Definition deliver (evs : list event) (s : state) : state :=
  fold_left (fun s ev => handle ev s) evs s.

(** A collaborator's reply to one call: how the promise settles and
    which events are handled before it does. *)
Record reply (A : Type) : Type := { meanwhile : list event; result : outcome A }.
Arguments meanwhile {A} r.
Arguments result {A} r.

(** [await] on a call [c] that leaves the service. *)
Definition await {A} (c : call) (r : reply A) : M A :=
  fun s =>
    let s := record (request c) s in
    let s := deliver (meanwhile r) s in
    (result r, record (settled c (failure (result r))) s).

(** [ethers.providers.TransactionResponse], of which only [hash] is read. *)
Record TransactionResponse : Type := { hash : string }.

(** The replies of the wallet and of the backend during one operation.
    For the verify endpoint, typed [any], the body [Body v] holds what
    [res.valid] evaluates to ([Undefined] when absent). *)
Record world : Type := {
  accounts_reply : reply (list string);
  nonce_reply : reply (response Nonce);
  signature_reply : reply string;
  address_reply : reply string;
  verify_reply : reply (response value);
  transaction_reply : reply TransactionResponse;
  receipt_reply : reply value
}.

Section Operations.
Variable w : world.

(** [this.provider?.send("eth_requestAccounts", [])] *)
Definition requestAccount : M (option (list string)) :=
  has_provider <- gets provider ;;
  if has_provider
  then accounts <- await eth_requestAccounts (accounts_reply w) ;;
       ret (Some accounts)
  else ret None.

(** The signer is [this.provider?.getSigner()]: defined exactly when
    the provider is. *)
Definition getSigner : M (option unit) :=
  requestAccount ;;
  has_provider <- gets provider ;;
  ret (if has_provider then Some tt else None).

Definition generateNonce : M (response Nonce) :=
  await GET_generatenonce (nonce_reply w).

Definition verifyMessage (message address signature : string) : M (response value) :=
  await (GET_verify_message message address signature) (verify_reply w).

Definition requestLogin : M (option string) :=
  modify (set_isAuthenticated false) ;;
  signer <- getSigner ;;
  res <- generateNonce ;;
  match res with
  | Absent n => throw (cannot_read n "nonce")
  | Body res =>
      let nonce := nonce res in
      modify (record (console_log "Message to be be signed is: ")) ;;
      match nonce with
      | None => throw (Error "Could not generate nonce!")
      | Some nonce =>
          signature <-
            match signer with
            | Some _ => signature <- await (signMessage nonce) (signature_reply w) ;;
                        ret (Some signature)
            | None => ret None
            end ;;
          match signature with
          | None => throw (Error "Could not sign message!")
          | Some signature =>
              address <-
                match signer with
                | Some _ => address <- await getAddress (address_reply w) ;;
                            ret (Some address)
                | None => ret None
                end ;;
              match address with
              | None => throw (Error "Could not get address!")
              | Some address =>
                  res <- verifyMessage nonce address signature ;;
                  match res with
                  | Absent n => throw (cannot_read n "valid")
                  | Body valid =>
                      if strictly_true valid
                      then
                        current <- gets account ;;
                        modify (record (console_log
                          ("Authenticated " ++
                           match current with Some a => a | None => "undefined" end))) ;;
                        modify (set_isAuthenticated true) ;;
                        gets account
                      else throw (Error "Signature invalid")
                  end
              end
          end
      end
  end.

(** [ethers.utils.parseEther] and [BigNumber.toHexString] belong to the
    ethers library; the operation is modelled for any such pair. *)
Variable parseEther : string -> thrown + Z.
Variable toHexString : Z -> string.

(** [networkVersion !== 1] with [networkVersion = this.network?.chainId] *)
Definition is_mainnet (networkVersion : option Z) : bool :=
  match networkVersion with
  | Some id => id =? 1
  | None => false
  end.

Definition requestSendTransaction (isProd : bool) (toAdress amountETH : string)
  : M string :=
  networkVersion <- gets (fun s => option_map chainId (network s)) ;;
  if isProd && negb (is_mainnet networkVersion)
  then throw (Error "Network should be Ethereum mainnet")
  else
  if negb isProd && is_mainnet networkVersion
  then throw (Error "Network should be a testnet")
  else
    signer <- getSigner ;;
    tx <-
      match signer with
      | Some _ =>
          match parseEther amountETH with
          | inl e => throw e
          | inr wei =>
              tx <- await (sendTransaction toAdress (toHexString wei))
                      (transaction_reply w) ;;
              ret (Some tx)
          end
      | None => ret None
      end ;;
    match tx with
    | None => throw (Error "Could not send transaction")
    | Some tx => ret (hash tx)
    end.

(** [await this.provider?.getTransactionReceipt(txHash)]; the receipt
    is kept as an opaque value, [Undefined] without a provider. *)
Definition checkTransactionConfirmation (txHash : string) : M value :=
  has_provider <- gets provider ;;
  if has_provider
  then await (getTransactionReceipt txHash) (receipt_reply w)
  else ret Undefined.

End Operations.

Definition checkTransactionConfirmationFromBackend (_txhash : string) : M value :=
  let receipt := Null in
  ret receipt.

(** The constructor. Field initialisers run first; with a wallet
    injected it builds the provider, subscribes to both events and asks
    for the accounts and the network. Both answers arrive later, as
    [accountsChanged] and [getNetwork_settled] events. *)
Definition MetaMaskService (isEthereumInstalled : bool) : state :=
  let s := {| provider := false; _network := None; _isAuthenticated := false;
              _account := None;
              trace := [network_next None; isAuthenticated_next false;
                        account_next None] |} in
  if isEthereumInstalled then
    let s := {| provider := true; _network := _network s;
                _isAuthenticated := _isAuthenticated s; _account := _account s;
                trace := trace s |} in
    let s := record (ethereum_on "accountsChanged") s in
    let s := record (request listAccounts) s in
    let s := record (ethereum_on "chainChanged") s in
    record (request getNetwork) s
  else s.

(** The effects an operation added to the trace. *)
Definition since (s s' : state) : list effect :=
  skipn (List.length (trace s)) (trace s').

(** What the event handlers may add to the trace: no call but the
    network query, and never an authenticated session. *)
Definition handler_effect (e : effect) : bool :=
  match e with
  | isAuthenticated_next b => negb b
  | request getNetwork | settled getNetwork _ => true
  | request _ | settled _ _ => false
  | ethereum_on _ => false
  | network_next _ | account_next _ | console_log _ | console_warn _ => true
  end.

(** The failures of the calls that an operation itself awaited, in order. *)
Fixpoint raised (t : list effect) : list thrown :=
  match t with
  | [] => []
  | settled getNetwork _ :: t => raised t
  | settled _ (Some e) :: t => e :: raised t
  | _ :: t => raised t
  end.

(** The calls an operation itself made, in order. *)
Fixpoint requests (t : list effect) : list call :=
  match t with
  | [] => []
  | request getNetwork :: t => requests t
  | request c :: t => c :: requests t
  | _ :: t => requests t
  end.

(** The login flow arrives at its verification step: a provider, account
    access granted, a nonce issued, signed, and the signer's address read. *)
Definition reaches_verifying (w : world) (s : state) : bool :=
  provider s
  && is_resolved (result (accounts_reply w))
  && match result (nonce_reply w) with
     | Resolved (Body {| nonce := Some _ |}) => true
     | _ => false
     end
  && is_resolved (result (signature_reply w))
  && is_resolved (result (address_reply w)).

(** The complete handshake: verification reached and answered [valid: true]. *)
Definition handshake_complete (w : world) (s : state) : bool :=
  reaches_verifying w s
  && match result (verify_reply w) with
     | Resolved (Body valid) => strictly_true valid
     | _ => false
     end.

End Service.

(** ** Display units and base units *)

Module Units.
Import JS.

(** The chain's decimal exponent: one display unit is [10^18] base units. *)
Definition decimals : nat := 18.
Definition multiplier : Z := 10 ^ Z.of_nat decimals.

Definition is_digit (c : ascii) : bool :=
  ((48 <=? nat_of_ascii c) && (nat_of_ascii c <=? 57))%nat.

Definition digit_value (c : ascii) : Z := Z.of_nat (nat_of_ascii c) - 48.

Definition digit_char (d : Z) : ascii := ascii_of_nat (48 + Z.to_nat d).

Fixpoint all_digits (s : string) : bool :=
  match s with
  | EmptyString => true
  | String c rest => is_digit c && all_digits rest
  end.

(** Strings over the digits and the point. *)
Fixpoint decimal_chars (s : string) : bool :=
  match s with
  | EmptyString => true
  | String c rest => (is_digit c || Ascii.eqb c ".") && decimal_chars rest
  end.

(** The number a string of digits denotes, most significant digit first. *)
Fixpoint digits_value (acc : Z) (s : string) : Z :=
  match s with
  | EmptyString => acc
  | String c rest => digits_value (10 * acc + digit_value c) rest
  end.

Fixpoint zeros (n : nat) : string :=
  match n with
  | O => ""
  | S n => String "0" (zeros n)
  end.

(** [s.split(".")] *)
Fixpoint split (s : string) : list string :=
  match s with
  | EmptyString => [""]
  | String c rest =>
      if Ascii.eqb c "."
      then "" :: split rest
      else match split rest with
           | head :: tail => String c head :: tail
           | [] => [String c ""]
           end
  end.

(** Removal of the zeros that end a string. *)
Fixpoint trim_trailing_zeros (s : string) : string :=
  match s with
  | EmptyString => ""
  | String c rest =>
      match trim_trailing_zeros rest with
      | EmptyString => if Ascii.eqb c "0" then "" else String c ""
      | kept => String c kept
      end
  end.

(** Removal of the zeros that start a string, but for its last character. *)
Fixpoint strip_leading_zeros (s : string) : string :=
  match s with
  | String c (String _ _ as rest) =>
      if Ascii.eqb c "0" then strip_leading_zeros rest else s
  | _ => s
  end.

(** The [n] low decimal digits of [z]. *)
Fixpoint digits_of (n : nat) (z : Z) : string :=
  match n with
  | O => ""
  | S n => digits_of n (z / 10) ++ String (digit_char (z mod 10)) ""
  end.

(** The decimal numeral of a natural number, without leading zeros. *)
Definition Z_toString (z : Z) : string :=
  strip_leading_zeros (digits_of (S (Z.to_nat (Z.log2 z))) z).

(** A decimal numeral: sign, digits before the point, digits after it. *)
Record decimal : Type := { negative : bool; whole : string; fraction : string }.

(** The numerals [-?[0-9]+] and [-?[0-9]+.[0-9]+]. *)
Definition well_formed (d : decimal) : bool :=
  all_digits (whole d) && all_digits (fraction d)
  && negb (String.eqb (whole d) "").

Definition print (d : decimal) : string :=
  (if negative d then "-" else "")
  ++ whole d
  ++ (if String.eqb (fraction d) "" then "" else "." ++ fraction d).

(** The rational number a numeral denotes. *)
Definition value (d : decimal) : Q :=
  let k := Z.of_nat (String.length (fraction d)) in
  let magnitude := digits_value 0 (whole d) * 10 ^ k + digits_value 0 (fraction d) in
  Qmake (if negative d then - magnitude else magnitude) (Z.to_pos (10 ^ k)).

(** Reading a string as a numeral. *)
Definition read_unsigned (negative : bool) (body : string) : option decimal :=
  match split body with
  | [whole] =>
      let d := {| negative := negative; whole := whole; fraction := "" |} in
      if well_formed d then Some d else None
  | [whole; fraction] =>
      let d := {| negative := negative; whole := whole; fraction := fraction |} in
      if well_formed d && negb (String.eqb fraction "") then Some d else None
  | _ => None
  end.

Definition read (s : string) : option decimal :=
  match s with
  | String c rest =>
      if Ascii.eqb c "-" then read_unsigned true rest else read_unsigned false s
  | EmptyString => None
  end.

Definition decimal_value (s : string) : option Q := option_map value (read s).

(** Modelled from the spec: the conversion of a decimal amount in display
    units to base units. The service calls [ethers.utils.parseEther] for
    it, and the code of that library is not in the repository. The amount
    is read as a fixed-point numeral and scaled by [10^18] on integers:
    the whole part times [10^18] plus the fraction padded to 18 digits.
    A string outside the digits and the point, one with two points or
    none but a point, or one whose fraction still has more than 18
    digits once its final zeros are dropped, is refused; a missing whole
    part or fraction counts as zero. *)
Definition parse_magnitude (body : string) : thrown + Z :=
  if negb (decimal_chars body) || String.eqb body ""
  then inl (Error "invalid decimal value")
  else if String.eqb body "."
  then inl (Error "missing value")
  else
    match split body with
    | _ :: _ :: _ :: _ => inl (Error "too many decimal points")
    | [] => inl (Error "invalid decimal value")
    | whole :: rest =>
        let fraction := match rest with f :: _ => f | [] => "" end in
        let fraction := trim_trailing_zeros fraction in
        if (decimals <? String.length fraction)%nat
        then inl (Error "fractional component exceeds decimals")
        else
          let fraction := fraction ++ zeros (decimals - String.length fraction) in
          inr (digits_value 0 whole * multiplier + digits_value 0 fraction)
    end.

(** Modelled from the spec: [ethers.utils.parseEther] itself, absent from
    the repository as well: a leading minus sign, then the magnitude. *)
Definition parseEther (ether : string) : thrown + Z :=
  match ether with
  | String c rest =>
      if Ascii.eqb c "-"
      then match parse_magnitude rest with
           | inr wei => inr (- wei)
           | inl e => inl e
           end
      else parse_magnitude ether
  | EmptyString => parse_magnitude ether
  end.

(** Modelled from the spec: the conversion of an amount in base units
    back to a decimal string in display units, which the service never
    performs. The whole part is the quotient by [10^18]; the fraction is
    the remainder on 18 digits, without its final zeros but never empty. *)
Definition formatEther (wei : Z) : string :=
  let negative := wei <? 0 in
  let magnitude := Z.abs wei in
  let fraction := trim_trailing_zeros (digits_of decimals (magnitude mod multiplier)) in
  let fraction := if String.eqb fraction "" then "0" else fraction in
  let whole := Z_toString (magnitude / multiplier) in
  (if negative then "-" else "") ++ whole ++ "." ++ fraction.

(** [BigNumber.toHexString] of the ethers library, as the library renders
    big numbers: the sign, [0x], and the magnitude in hexadecimal on whole
    bytes, zero being [0x00]. The properties of the service hold for any
    rendering; this one serves in the sample runs. *)
Definition hex_char (d : Z) : ascii :=
  if d <? 10 then ascii_of_nat (48 + Z.to_nat d) else ascii_of_nat (87 + Z.to_nat d).

Fixpoint hex_digits_of (n : nat) (z : Z) : string :=
  match n with
  | O => ""
  | S n => hex_digits_of n (z / 16) ++ String (hex_char (z mod 16)) ""
  end.

Definition toHexString (z : Z) : string :=
  let magnitude := Z.abs z in
  let bytes := S (Z.to_nat (Z.log2 magnitude / 8)) in
  (if z <? 0 then "-0x" else "0x") ++ hex_digits_of (2 * bytes) magnitude.

End Units.

(** ** The older, non-reactive service *)

Module Legacy.
Import JS.
Local Open Scope js_scope.

(** The [toString(radix)] numeral of a number, kept symbolic. *)
Record numeral : Type := { radix : Z; denotes : number }.

Definition toString (x : number) (radix : Z) : numeral :=
  {| radix := radix; denotes := x |}.

Record transactionParameters : Type := {
  nonce : string;
  to : string;
  from : string;
  value : numeral;
  data : string;
  chainId : string
}.

Inductive call : Type :=
| eth_accounts
| eth_requestAccounts
| signer_signMessage (message : string)
| signer_getAddress
| eth_sendTransaction (params : transactionParameters)
| eth_getTransactionReceipt (txhash : string)
| GET_generatenonce
| GET_verify_message (message address signature : string).

Inductive effect : Type :=
| console_log (text : string)
| request (c : call)
| settled (c : call) (failure : option thrown).

(** The fields of the class; [networkVersion] is a number here. *)
Record state : Type := {
  errorMessage : string;
  isMetaMaskInstalled : bool;
  networkVersion : Z;
  metaMaskAddress : string;
  isAuthenticatedWithMetaMask : bool;
  txhash : string;
  isTransactionSuccessful : bool;
  trace : list effect
}.

Definition record (e : effect) (s : state) : state :=
  {| errorMessage := errorMessage s; isMetaMaskInstalled := isMetaMaskInstalled s;
     networkVersion := networkVersion s; metaMaskAddress := metaMaskAddress s;
     isAuthenticatedWithMetaMask := isAuthenticatedWithMetaMask s;
     txhash := txhash s; isTransactionSuccessful := isTransactionSuccessful s;
     trace := trace s ++ [e] |}.

Definition M : Type -> Type := JS.M state.

(** [window.ethereum], when the wallet injected it. *)
Record Ethereum : Type := {
  isMetaMask : bool;
  ethereum_networkVersion : JS.value
}.

(** The page and the replies of the collaborators during one operation. *)
Record world : Type := {
  ethereum : option Ethereum;
  requestAccounts_reply : outcome (list string);
  signature_reply : outcome string;
  address_reply : outcome string;
  sendTransaction_reply : outcome JS.value
}.

Definition await {A} (c : call) (r : outcome A) : M A :=
  fun s => (r, record (settled c (failure r)) (record (request c) s)).

Section Operations.
Variable w : world.

(** Conversion of a string to a number is left to the JavaScript engine. *)
Variable StringToNumber : string -> number.

(** [v == 1] *)
Definition loosely_equals_one (v : JS.value) : bool :=
  match v with
  | Undefined | Null => false
  | Bool b => b
  | Num x => number_eqb x (number_of_Z 1)
  | Str s => number_eqb (StringToNumber s) (number_of_Z 1)
  end.

(** [window.ethereum.<member>] *)
Definition window_ethereum (member : string) : M Ethereum :=
  match ethereum w with
  | Some eth => ret eth
  | None => throw (TypeError ("Cannot read properties of undefined (reading '"
                              ++ member ++ "')"))
  end.

(** The result is [{ signature, address }], or [null]. *)
Definition signMessage (message : string) : M (option (string * string)) :=
  try_catch
    (window_ethereum "request" ;;
     await eth_requestAccounts (requestAccounts_reply w) ;;
     signature <- await (signer_signMessage message) (signature_reply w) ;;
     address <- await signer_getAddress (address_reply w) ;;
     ret (Some (signature, address)))
    (fun err =>
       modify (record (console_log ("Unable to sign: " ++ thrown_to_string err))) ;;
       ret None).

(** [amountETH * Math.pow(10, 18)]: one binary64 multiplication by the
    number 10^18, which binary64 holds exactly. *)
Definition amountWEIDec (amountETH : number) : number :=
  number_mul amountETH (number_of_Z (10 ^ 18)).

(** The result is the wallet's transaction hash, or [undefined]. *)
Definition sendTransaction (isProd : bool) (fromAddress toAdress : string)
  (amountETH : number) : M JS.value :=
  try_catch
    (eth <- window_ethereum "networkVersion" ;;
     let networkVersion := ethereum_networkVersion eth in
     if isProd && negb (loosely_equals_one networkVersion)
     then throw (Thrown_string "Network should be Ethereum mainnet")
     else
     if negb isProd && loosely_equals_one networkVersion
     then throw (Thrown_string "Network should be a testnet")
     else
       let amountWEIHex := toString (amountWEIDec amountETH) 16 in
       let transactionParameters :=
         {| nonce := "0x00";
            to := toAdress;
            from := fromAddress;
            value := amountWEIHex;
            data := "0x7f7465737432000000000000000000000000000000000000000000000000000000600057";
            chainId := "0x3" |} in
       txHash <- await (eth_sendTransaction transactionParameters)
                   (sendTransaction_reply w) ;;
       ret txHash)
    (fun err =>
       modify (record (console_log
                 ("Unable to send transaction: " ++ thrown_to_string err))) ;;
       ret Undefined).

End Operations.

Definition checkTransactionConfirmationFromBackend (txhash : string) : M JS.value :=
  let receipt := Null in
  ret receipt.

(** The failures of the calls an operation awaited, in order. *)
Fixpoint raised (t : list effect) : list thrown :=
  match t with
  | [] => []
  | settled _ (Some e) :: t => e :: raised t
  | _ :: t => raised t
  end.

Fixpoint requests (t : list effect) : list call :=
  match t with
  | [] => []
  | request c :: t => c :: requests t
  | _ :: t => requests t
  end.

Definition since (s s' : state) : list effect :=
  skipn (List.length (trace s)) (trace s').

(** The part of the engine's conversion that the decimal chain ids need:
    a string of decimal digits is the number it spells and the empty
    string is zero, as in the engine. It is the engine's conversion on
    those strings only: the other numerals the engine reads (with spaces
    around, a sign, a fraction, an exponent, a [0x] prefix, [Infinity])
    are not read here and come out as [NaN]. *)
Definition StringToNumber_digits (s : string) : number :=
  if Units.all_digits s
  then number_of_Z (Units.digits_value 0 s)
  else S754_nan.

(** [clearContext], then the field values the constructor leaves. *)
Definition MetaMaskService (installed : bool) : state :=
  {| errorMessage := ""; isMetaMaskInstalled := installed; networkVersion := 1;
     metaMaskAddress := ""; isAuthenticatedWithMetaMask := false; txhash := "";
     isTransactionSuccessful := false; trace := [] |}.

End Legacy.

(** ** Sample sessions *)

Module Sample.
Import JS.

Definition at_once {A} (r : outcome A) : Service.reply A :=
  {| Service.meanwhile := []; Service.result := r |}.

(** A backend that issues the nonce [abc123] and accepts the signature,
    and a wallet that grants everything it is asked. *)
Definition accepting : Service.world :=
  {| Service.accounts_reply := at_once (Resolved ["0xA11ce"]);
     Service.nonce_reply := at_once (Resolved (Body {| Service.nonce := Some "abc123" |}));
     Service.signature_reply := at_once (Resolved "0x5160");
     Service.address_reply := at_once (Resolved "0xA11ce");
     Service.verify_reply := at_once (Resolved (Body (Bool true)));
     Service.transaction_reply := at_once (Resolved {| Service.hash := "0x7a" |});
     Service.receipt_reply := at_once (Resolved Null) |}.

(** The same, but the backend answers [valid: false], and the wallet
    switches account while the verification is pending. *)
Definition refusing : Service.world :=
  {| Service.accounts_reply := at_once (Resolved ["0xA11ce"]);
     Service.nonce_reply := at_once (Resolved (Body {| Service.nonce := Some "abc123" |}));
     Service.signature_reply := at_once (Resolved "0x5160");
     Service.address_reply := at_once (Resolved "0xA11ce");
     Service.verify_reply :=
       {| Service.meanwhile := [Service.accountsChanged (Some ["0xB0b"; "0xA11ce"])];
          Service.result := Resolved (Body (Bool false)) |};
     Service.transaction_reply := at_once (Resolved {| Service.hash := "0x7a" |});
     Service.receipt_reply := at_once (Resolved Null) |}.

(** A user who declines the signature request. *)
Definition declining : Service.world :=
  {| Service.accounts_reply := at_once (Resolved ["0xA11ce"]);
     Service.nonce_reply := at_once (Resolved (Body {| Service.nonce := Some "abc123" |}));
     Service.signature_reply :=
       at_once (Rejected (Wallet_error 4001 "User denied message signature."));
     Service.address_reply := at_once (Resolved "0xA11ce");
     Service.verify_reply := at_once (Resolved (Body (Bool true)));
     Service.transaction_reply :=
       at_once (Rejected (Wallet_error 4001 "User denied transaction signature."));
     Service.receipt_reply := at_once (Resolved Null) |}.

Definition ropsten : Service.Network := {| Service.chainId := 3; Service.name := "ropsten" |}.
Definition homestead : Service.Network := {| Service.chainId := 1; Service.name := "homestead" |}.

(** The service once the wallet has reported one account and a network. *)
Definition connected (net : Service.Network) : Service.state :=
  Service.deliver
    [Service.accountsChanged (Some ["0xA11ce"]);
     Service.getNetwork_settled (Resolved net)]
    (Service.MetaMaskService true).

(** The older service on a page whose wallet is on the Ropsten test
    network ([networkVersion] is the string [3]) and whose user declines
    what the wallet asks. *)
Definition legacy_declining : Legacy.world :=
  {| Legacy.ethereum :=
       Some {| Legacy.isMetaMask := true;
               Legacy.ethereum_networkVersion := Str "3" |};
     Legacy.requestAccounts_reply := Resolved ["0xA11ce"];
     Legacy.signature_reply :=
       Rejected (Wallet_error 4001 "User denied message signature.");
     Legacy.address_reply := Resolved "0xA11ce";
     Legacy.sendTransaction_reply :=
       Rejected (Wallet_error 4001 "User denied transaction signature.") |}.

(** The same page with a user who approves. *)
Definition legacy_approving : Legacy.world :=
  {| Legacy.ethereum :=
       Some {| Legacy.isMetaMask := true;
               Legacy.ethereum_networkVersion := Str "3" |};
     Legacy.requestAccounts_reply := Resolved ["0xA11ce"];
     Legacy.signature_reply := Resolved "0x5160";
     Legacy.address_reply := Resolved "0xA11ce";
     Legacy.sendTransaction_reply := Resolved (Str "0x7a") |}.

(** The number nearest to 1.1, which is what the literal [1.1] denotes. *)
Definition one_point_one : number := S754_finite false 4953959590107546 (-52).

(** The number 1 + 2^-18 = 1.000003814697265625. *)
Definition one_and_a_bit : number := S754_finite false 4503616807239680 (-52).

End Sample.

(** ** What the observable streams hold *)

Module Streams.
Import JS Service.

(** The value a [BehaviorSubject] holds after a trace: the last one
    pushed on it, or the one it held before. *)
Fixpoint account_held (held : option (option string)) (t : list effect)
  : option (option string) :=
  match t with
  | [] => held
  | account_next a :: t => account_held (Some a) t
  | _ :: t => account_held held t
  end.

Fixpoint network_held (held : option (option Network)) (t : list effect)
  : option (option Network) :=
  match t with
  | [] => held
  | network_next n :: t => network_held (Some n) t
  | _ :: t => network_held held t
  end.

Fixpoint isAuthenticated_held (held : option bool) (t : list effect) : option bool :=
  match t with
  | [] => held
  | isAuthenticated_next b :: t => isAuthenticated_held (Some b) t
  | _ :: t => isAuthenticated_held held t
  end.

(** [isConnected$]: the account stream through
    [map((account) => account !== undefined && account !== null)]. *)
Definition isConnected_held (t : list effect) : option bool :=
  option_map (fun account : option string =>
                match account with
                | Some _ => true
                | None => false
                end)
             (account_held None t).

(** Every subject holds the value of its field. *)
Definition current (s : state) : Prop :=
  account_held None (trace s) = Some (_account s)
  /\ network_held None (trace s) = Some (_network s)
  /\ isAuthenticated_held None (trace s) = Some (_isAuthenticated s).

Definition keeps {A} (m : M A) : Prop :=
  forall s, current s -> current (snd (m s)).

(** The states of the service: the constructor's, and those that the
    handlers and the operations lead to. *)
Inductive reachable : state -> Prop :=
| constructed (isEthereumInstalled : bool) :
    reachable (MetaMaskService isEthereumInstalled)
| handled (ev : event) (s : state) :
    reachable s -> reachable (handle ev s)
| logged_in (w : world) (s : state) :
    reachable s -> reachable (snd (requestLogin w s))
| submitted (w : world) (parseEther : string -> thrown + Z)
    (toHexString : Z -> string) (isProd : bool) (toAdress amountETH : string)
    (s : state) :
    reachable s ->
    reachable (snd (requestSendTransaction w parseEther toHexString
                      isProd toAdress amountETH s))
| confirmation_checked (w : world) (txHash : string) (s : state) :
    reachable s -> reachable (snd (checkTransactionConfirmation w txHash s))
| backend_checked (txhash : string) (s : state) :
    reachable s -> reachable (snd (checkTransactionConfirmationFromBackend txhash s)).

(** An account change is among the events. *)
Definition is_accountsChanged (ev : event) : bool :=
  match ev with
  | accountsChanged _ => true
  | _ => false
  end.

End Streams.

(** ** The older service: setters and plain queries *)

Module LegacyQueries.
Import JS Legacy.
Local Open Scope js_scope.

Definition setNetworkVersion (networkVersion : Z) (s : state) : state :=
  {| errorMessage := errorMessage s; isMetaMaskInstalled := isMetaMaskInstalled s;
     networkVersion := networkVersion; metaMaskAddress := metaMaskAddress s;
     isAuthenticatedWithMetaMask := isAuthenticatedWithMetaMask s;
     txhash := txhash s; isTransactionSuccessful := isTransactionSuccessful s;
     trace := trace s |}.

(** The fields of the class, without the trace. *)
Definition fields (s : state)
  : string * bool * Z * string * bool * string * bool :=
  (errorMessage s, isMetaMaskInstalled s, networkVersion s, metaMaskAddress s,
   isAuthenticatedWithMetaMask s, txhash s, isTransactionSuccessful s).

Section Queries.
Variable w : world.

(** [await window.ethereum.request({ method: "eth_accounts" })] *)
Definition requestMetaMaskAddress (reply : outcome (list string)) : M (list string) :=
  window_ethereum w "request" ;;
  address <- await eth_accounts reply ;;
  ret address.

(** [await window.ethereum.request({method:'eth_getTransactionReceipt', params:[txhash]})] *)
Definition checkTransactionConfirmation (reply : outcome JS.value) (txhash : string)
  : M JS.value :=
  window_ethereum w "request" ;;
  receipt <- await (eth_getTransactionReceipt txhash) reply ;;
  ret receipt.

End Queries.

(** [await this.httpClient.get<any>(this.apiURL + '/metamask/generatenonce').toPromise()] *)
Definition generateNonce (reply : outcome JS.value) : M JS.value :=
  nonce <- await GET_generatenonce reply ;;
  ret nonce.

Definition verifyMessage (reply : outcome JS.value)
  (message address signature : string) : M JS.value :=
  verifyMessageResponse <- await (GET_verify_message message address signature) reply ;;
  ret verifyMessageResponse.

(** The whole numbers of ether from 0 to [n]. *)
Definition whole_amounts (n : nat) : list Z := map Z.of_nat (seq 0 (S n)).

(** [amountWEIDec] gives a whole amount its exact number of base units. *)
Definition exact_on (n : Z) : bool :=
  match integer_of_number (amountWEIDec (number_of_Z n)) with
  | Some wei => wei =? n * 10 ^ 18
  | None => false
  end.

End LegacyQueries.

(** ** More sample sessions *)

Module Scene.
Import JS.

(** The backend accepts the signature, and the wallet switches to
    another account while the verification is pending. *)
Definition switching : Service.world :=
  {| Service.accounts_reply := Sample.at_once (Resolved ["0xA11ce"]);
     Service.nonce_reply :=
       Sample.at_once (Resolved (Body {| Service.nonce := Some "abc123" |}));
     Service.signature_reply := Sample.at_once (Resolved "0x5160");
     Service.address_reply := Sample.at_once (Resolved "0xA11ce");
     Service.verify_reply :=
       {| Service.meanwhile :=
            [Service.accountsChanged (Some ["0xB0b"]); Service.chainChanged "0x1"];
          Service.result := Resolved (Body (Bool true)) |};
     Service.transaction_reply := Sample.at_once (Resolved {| Service.hash := "0x7a" |});
     Service.receipt_reply := Sample.at_once (Resolved Null) |}.

(** The verify endpoint answers with an empty body. *)
Definition bodyless : Service.world :=
  {| Service.accounts_reply := Sample.at_once (Resolved ["0xA11ce"]);
     Service.nonce_reply :=
       Sample.at_once (Resolved (Body {| Service.nonce := Some "abc123" |}));
     Service.signature_reply := Sample.at_once (Resolved "0x5160");
     Service.address_reply := Sample.at_once (Resolved "0xA11ce");
     Service.verify_reply := Sample.at_once (Resolved (Absent null));
     Service.transaction_reply := Sample.at_once (Resolved {| Service.hash := "0x7a" |});
     Service.receipt_reply := Sample.at_once (Resolved Null) |}.

(** A page without a wallet. *)
Definition legacy_without_wallet : Legacy.world :=
  {| Legacy.ethereum := None;
     Legacy.requestAccounts_reply := Resolved ["0xA11ce"];
     Legacy.signature_reply := Resolved "0x5160";
     Legacy.address_reply := Resolved "0xA11ce";
     Legacy.sendTransaction_reply := Resolved (Str "0x7a") |}.

End Scene.

(** * Properties *)

Local Open Scope list_scope.

(** ** Session state and the event handlers *)

Section Handlers.
Import JS Service.

Lemma skipn_prefix {A} (t l : list A) : skipn (List.length t) (t ++ l) = l.
Proof. induction t as [|a t IH]; simpl; auto. Qed.

Lemma since_app s s' l : trace s' = trace s ++ l -> since s s' = l.
Proof. intros E. unfold since. rewrite E. apply skipn_prefix. Qed.

Lemma since_refl s : since s s = [].
Proof. apply since_app. rewrite app_nil_r. reflexivity. Qed.

(** Handlers never touch the provider. *)
Lemma handle_provider ev s : provider (handle ev s) = provider s.
Proof.
  destruct ev as [accounts | chainId | r |]; simpl; auto.
  - destruct accounts as [[|a [|b l]]|]; reflexivity.
  - unfold onChainChanged. simpl. destruct (provider s) eqn:P; simpl; auto.
  - destruct r; auto.
Qed.

Lemma deliver_provider evs s : provider (deliver evs s) = provider s.
Proof.
  revert s. induction evs as [|ev evs IH]; intros s; simpl; auto.
  change (deliver (ev :: evs) s) with (deliver evs (handle ev s)).
  rewrite IH. apply handle_provider.
Qed.

(** No handler turns an unauthenticated session into an authenticated one. *)
Lemma handle_unauthenticated ev s :
  _isAuthenticated s = false -> _isAuthenticated (handle ev s) = false.
Proof.
  intros H. destruct ev as [accounts | chainId | r |]; simpl; auto.
  - unfold onChainChanged. simpl. destruct (provider s) eqn:P; simpl; auto.
  - destruct r; auto.
Qed.

Lemma deliver_unauthenticated evs s :
  _isAuthenticated s = false -> _isAuthenticated (deliver evs s) = false.
Proof.
  revert s. induction evs as [|ev evs IH]; intros s H; simpl; auto.
  apply IH. apply handle_unauthenticated. exact H.
Qed.

(** What a handler writes to the trace. *)
Lemma handle_trace ev s :
  exists l, trace (handle ev s) = trace s ++ l /\ forallb handler_effect l = true.
Proof.
  destruct ev as [accounts | chainId | r |]; simpl.
  - destruct accounts as [[|a [|b l]]|]; simpl;
      eexists; rewrite <- !app_assoc; split; reflexivity.
  - unfold onChainChanged. simpl. destruct (provider s); simpl;
      eexists; rewrite <- ?app_assoc; split; reflexivity.
  - destruct r; simpl; eexists; rewrite <- ?app_assoc; split; reflexivity.
  - eexists. split; reflexivity.
Qed.

Lemma deliver_trace evs s :
  exists l, trace (deliver evs s) = trace s ++ l /\ forallb handler_effect l = true.
Proof.
  revert s. induction evs as [|ev evs IH]; intros s; simpl.
  - exists []. rewrite app_nil_r. auto.
  - destruct (handle_trace ev s) as (l1 & E1 & F1).
    destruct (IH (handle ev s)) as (l2 & E2 & F2).
    exists (l1 ++ l2). split.
    + change (deliver (ev :: evs) s) with (deliver evs (handle ev s)).
      rewrite E2, E1, app_assoc. reflexivity.
    + rewrite forallb_app, F1, F2. reflexivity.
Qed.

Lemma handler_effects_raise_nothing l :
  forallb handler_effect l = true -> raised l = [] /\ requests l = [].
Proof.
  induction l as [|e l IH]; simpl; auto.
  intros H. apply andb_true_iff in H. destruct H as [He Hl].
  destruct (IH Hl) as [R Q].
  destruct e as [ | | | | | | c | c f]; simpl in *; auto; try discriminate;
    destruct c; simpl in *; try discriminate; auto.
Qed.

Lemma handler_effects_never_authenticate l :
  forallb handler_effect l = true -> ~ In (isAuthenticated_next true) l.
Proof.
  intros H I. rewrite forallb_forall in H. apply H in I. discriminate.
Qed.

(** C1. On every [accountsChanged] event the account becomes the first
    element of the new list, or none when the list is empty (or missing),
    in which case the session is not connected; in every case
    [isAuthenticated] is set to false by the same run of the handler,
    right after the account, and no later wallet event or logout makes
    it true again: only a login can. *)
Theorem accountsChanged_resets_the_session :
  forall (accounts : option (list string)) (s : state),
    let s' := onAccountsChanged accounts s in
    account s' = match accounts with
                 | Some (first :: _) => Some first
                 | _ => None
                 end
    /\ isConnected s' = match accounts with
                        | Some (_ :: _) => true
                        | _ => false
                        end
    /\ isAuthenticated s' = false
    /\ (exists before,
          since s s' = before ++ [account_next (account s');
                                  isAuthenticated_next false])
    /\ (forall later : list event, isAuthenticated (deliver later s') = false).
Proof.
  intros accounts s s'.
  assert (A : isAuthenticated s' = false) by reflexivity.
  repeat split.
  - destruct accounts as [[|a l]|]; reflexivity.
  - destruct accounts as [[|a l]|]; reflexivity.
  - subst s'. destruct accounts as [[|a [|b l]]|]; simpl.
    + exists [console_log "onAccountsChanged"]. apply since_app.
      simpl. rewrite <- !app_assoc. reflexivity.
    + exists [console_log "onAccountsChanged"]. apply since_app.
      simpl. rewrite <- !app_assoc. reflexivity.
    + exists [console_log "onAccountsChanged";
              console_warn "More than one account connected"].
      apply since_app. simpl. rewrite <- !app_assoc. reflexivity.
    + exists [console_log "onAccountsChanged"]. apply since_app.
      simpl. rewrite <- !app_assoc. reflexivity.
  - intros later. apply deliver_unauthenticated. exact A.
Qed.

(** C7. Logout succeeds from every state: it resolves, sets
    [isAuthenticated] to false at once, leaves the account, the network and
    the provider as they were, and its only effect is the emission of
    [false]: no call to the wallet or to the backend. *)
Theorem logout_always_succeeds :
  forall s : state,
    exists s',
      logout s = (Resolved tt, s')
      /\ isAuthenticated s' = false
      /\ account s' = account s
      /\ network s' = network s
      /\ provider s' = provider s
      /\ since s s' = [isAuthenticated_next false]
      /\ requests (since s s') = [].
Proof.
  intros s. exists (set_isAuthenticated false s).
  assert (E : since s (set_isAuthenticated false s) = [isAuthenticated_next false])
    by (apply since_app; reflexivity).
  rewrite E. repeat split.
Qed.

(** C8. On every [chainChanged] event the handler asks the wallet for the
    current network (whenever the service has a provider, which it has
    whenever it listens) and touches nothing else; when the answer comes,
    the network field takes it, and the account and [isAuthenticated] stay
    as they are. The chain id of the event is not used. *)
Theorem chainChanged_updates_only_the_network :
  forall (chainId : string) (s : state),
    let s1 := onChainChanged chainId s in
    since s s1 = console_log "onChainChanged"
                 :: (if provider s then [request getNetwork] else [])
    /\ account s1 = account s
    /\ isAuthenticated s1 = isAuthenticated s
    /\ network s1 = network s
    /\ (forall (r : outcome Network) (s2 : state),
          let s3 := getNetwork_then r s2 in
          network s3 = match r with
                       | Resolved current => Some current
                       | Rejected _ => network s2
                       end
          /\ account s3 = account s2
          /\ isAuthenticated s3 = isAuthenticated s2).
Proof.
  intros chainId s s1. subst s1. unfold onChainChanged. simpl.
  repeat split.
  - apply since_app. destruct (provider s); simpl; rewrite <- ?app_assoc; reflexivity.
  - destruct (provider s); reflexivity.
  - destruct (provider s); reflexivity.
  - destruct (provider s); reflexivity.
  - destruct r; reflexivity.
  - destruct r; reflexivity.
  - destruct r; reflexivity.
Qed.

(** The service listens to the wallet exactly when it has a provider. *)
Lemma listening_needs_provider (installed : bool) (eventName : string) :
  In (ethereum_on eventName) (trace (MetaMaskService installed)) ->
  provider (MetaMaskService installed) = true.
Proof.
  destruct installed; simpl; auto.
  intros [H | [H | [H | []]]]; discriminate.
Qed.

End Handlers.

(** ** The operations of the reactive service *)

(** *** The login flow *)

Section Operations.
Import JS Service.

Lemma raised_app l1 l2 : raised (l1 ++ l2) = raised l1 ++ raised l2.
Proof.
  induction l1 as [|e l1 IH]; simpl; auto.
  destruct e as [ | | | | | | c | c [f|]]; simpl; auto; destruct c; simpl; auto;
    rewrite IH; reflexivity.
Qed.

Lemma requests_app l1 l2 : requests (l1 ++ l2) = requests l1 ++ requests l2.
Proof.
  induction l1 as [|e l1 IH]; simpl; auto.
  destruct e as [ | | | | | | c | c f]; simpl; auto; destruct c; simpl; auto;
    rewrite IH; reflexivity.
Qed.

(** One [await] on a collaborator: the call goes out, handlers may run,
    the reply comes in. *)
Lemma await_run {A} (c : call) (r : reply A) (s : state) :
  exists s' l,
    await c r s = (result r, s')
    /\ provider s' = provider s
    /\ (_isAuthenticated s = false -> _isAuthenticated s' = false)
    /\ forallb handler_effect l = true
    /\ trace s' = trace s ++ request c :: l ++ [settled c (failure (result r))].
Proof.
  destruct (deliver_trace (meanwhile r) (record (request c) s)) as (l & T & F).
  eexists. exists l. split; [reflexivity|]. repeat split.
  - simpl. rewrite deliver_provider. reflexivity.
  - intros H. simpl. apply deliver_unauthenticated. exact H.
  - exact F.
  - simpl. rewrite T. simpl. rewrite <- !app_assoc. reflexivity.
Qed.

(** Symbolic execution of an operation: every [await] is replaced by
    its summary, every branch of the flow is followed. *)
Ltac reduce_in H :=
  cbv beta iota delta [requestLogin requestSendTransaction
                       checkTransactionConfirmation getSigner requestAccount
                       generateNonce verifyMessage bind gets modify ret throw] in H;
  cbn [provider set_isAuthenticated record nonce] in H.

Ltac await_in H :=
  match type of H with
  | context [await ?c ?r ?s] =>
      let s' := fresh "s" in
      let l := fresh "l" in
      let E := fresh "E" in
      let P := fresh "P" in
      let U := fresh "U" in
      let F := fresh "F" in
      let T := fresh "T" in
      let R := fresh "R" in
      destruct (await_run c r s) as (s' & l & E & P & U & F & T);
      rewrite E in H; clear E;
      cbn [provider set_isAuthenticated record] in P;
      first [ match goal with
              | A : result r = _ |- _ => rewrite A in H, T
              end
            | destruct (result r) eqn:R ];
      cbn [failure] in T;
      reduce_in H;
      try rewrite P in H
  end.

Ltac explore H :=
  repeat first
    [ await_in H
    | match type of H with
      | context [provider ?s] =>
          match goal with P : provider s = _ |- _ => rewrite P in H end
      end; reduce_in H
    | match type of H with
      | context [match ?x with Some _ => _ | None => _ end] => is_var x; destruct x
      | context [match ?x with Absent _ => _ | Body _ => _ end] => is_var x; destruct x
      | context [nonce ?x] => is_var x; destruct x as [[?|]]; cbn [nonce] in H
      | context [strictly_true ?v] => destruct (strictly_true v) eqn:?
      | context [match ?x with inl _ => _ | inr _ => _ end] => destruct x eqn:?
      | context [if ?b then _ else _] => destruct b eqn:?
      end; reduce_in H ].

Ltac login_cases H :=
  reduce_in H;
  try match type of H with
      | context [provider ?s] => destruct (provider s) eqn:?
      end;
  reduce_in H; explore H;
  injection H as <- <-.

(** The trace of the state a run ends in, from the trace it started with. *)
Ltac whole_trace :=
  repeat (cbn [trace record set_isAuthenticated];
          match goal with
          | T : trace ?x = _ |- context [trace ?x] => rewrite T
          end);
  cbn [trace record set_isAuthenticated];
  rewrite <- ?app_assoc; cbn [app].

Ltac unauthenticated :=
  unfold isAuthenticated;
  cbn [is_resolved _isAuthenticated record set_isAuthenticated];
  repeat match goal with
         | U : _ -> _isAuthenticated ?x = false |- _isAuthenticated ?x = false =>
             apply U; cbn [_isAuthenticated record set_isAuthenticated]
         end;
  reflexivity.

Ltac quiet_handlers :=
  repeat match goal with
         | F : forallb handler_effect ?l = true |- _ =>
             let Q := fresh "Q" in
             let N := fresh "N" in
             pose proof (handler_effects_raise_nothing l F) as Q;
             pose proof (handler_effects_never_authenticate l F) as N;
             clear F
         end.

Lemma requestLogin_session w s r s' :
  requestLogin w s = (r, s') ->
  (exists rest, since s s' = isAuthenticated_next false :: rest)
  /\ isAuthenticated s' = is_resolved r
  /\ is_resolved r = handshake_complete w s.
Proof.
  intros H. login_cases H.
  all: split; [eexists; apply since_app; whole_trace; reflexivity|].
  all: split; [unauthenticated|].
  all: unfold handshake_complete, reaches_verifying;
    repeat match goal with
           | R : _ = _ |- _ => rewrite R; clear R
           end;
    reflexivity.
Qed.

(** The effects of a finished run, the handlers' own summarised. *)
Ltac summarise :=
  quiet_handlers;
  first [ rewrite since_refl
        | erewrite since_app by (whole_trace; reflexivity) ];
  repeat (cbn [raised requests app];
          rewrite ?raised_app, ?requests_app;
          repeat match goal with
                 | Q : raised ?l = [] /\ requests ?l = [] |- _ =>
                     let Qr := fresh "Qr" in
                     let Qq := fresh "Qq" in
                     destruct Q as [Qr Qq]
                 end;
          repeat match goal with
                 | Qr : raised ?l = [] |- context [raised ?l] => rewrite Qr
                 | Qq : requests ?l = [] |- context [requests ?l] => rewrite Qq
                 end).

Lemma strictly_true_iff v : strictly_true v = true <-> v = Bool true.
Proof.
  destruct v as [ | | [|] | x | t]; simpl; split; intros H;
    try discriminate H; reflexivity.
Qed.

Lemma requestLogin_verification w s r s' accounts n signature address verdict :
  requestLogin w s = (r, s') ->
  provider s = true ->
  result (accounts_reply w) = Resolved accounts ->
  result (nonce_reply w) = Resolved (Body {| nonce := Some n |}) ->
  result (signature_reply w) = Resolved signature ->
  result (address_reply w) = Resolved address ->
  result (verify_reply w) = Resolved verdict ->
  In (GET_verify_message n address signature) (requests (since s s'))
  /\ match verdict with
     | Body valid =>
         if strictly_true valid
         then r = Resolved (account s')
              /\ isAuthenticated s' = true
              /\ exists before, since s s' = before ++ [isAuthenticated_next true]
         else r = Rejected (Error "Signature invalid")
              /\ isAuthenticated s' = false
              /\ ~ In (isAuthenticated_next true) (since s s')
     | Absent missing =>
         r = Rejected (cannot_read missing "valid")
         /\ isAuthenticated s' = false
         /\ ~ In (isAuthenticated_next true) (since s s')
     end.
Proof.
  intros H Hp Ha Hn Hs Had Hv. reduce_in H. rewrite Hp in H.
  destruct verdict as [missing | valid].
  - login_cases H; try discriminate.
    split; [summarise; cbn [In]; tauto|].
    split; [reflexivity|]. split; [unauthenticated|].
    quiet_handlers. erewrite since_app by (whole_trace; reflexivity).
    repeat (progress cbn [In] || rewrite in_app_iff).
    intuition discriminate.
  - login_cases H; try discriminate.
    + split; [summarise; cbn [In]; tauto|].
      repeat split.
      match goal with
      | |- context [since s (set_isAuthenticated true (record ?e ?x))] =>
          assert (exists pre, trace x = trace s ++ pre) as [pre Hpre]
            by (eexists; whole_trace; reflexivity);
          exists (pre ++ [e]); apply since_app;
          cbn [trace record set_isAuthenticated]; rewrite Hpre
      end.
      rewrite <- !app_assoc. reflexivity.
    + split; [summarise; cbn [In]; tauto|].
      split; [reflexivity|]. split; [unauthenticated|].
      quiet_handlers. erewrite since_app by (whole_trace; reflexivity).
      repeat (progress cbn [In] || rewrite in_app_iff).
      intuition discriminate.
Qed.

Lemma requestLogin_propagates w s r s' :
  requestLogin w s = (r, s') ->
  (forall e, In e (raised (since s s')) -> r = Rejected e)
  /\ (List.length (raised (since s s')) <= 1)%nat
  /\ NoDup (requests (since s s')).
Proof.
  intros H. login_cases H.
  all: summarise; cbn [In List.length].
  all: split; [intros ? [<- | []] || intros ? []; reflexivity|].
  all: split; [lia|].
  all: repeat constructor; cbn [In]; intuition discriminate.
Qed.

(** C5, as amended. Once the login flow is at its verification step,
    the backend is asked to verify the nonce, the signer's address and the
    signature. If the response has a body whose [valid] is strictly equal
    to [true], the login resolves with the account the service holds at
    that moment and [isAuthenticated] is true, its emission being the last
    effect. If the response has a body whose [valid] is anything else,
    absent or false included, the login is rejected with the error
    [Signature invalid], [isAuthenticated] is false and [true] was never
    emitted. If the response has no body, being [null] or [undefined], the
    login is rejected with the [TypeError] of reading [valid] from it,
    [isAuthenticated] is false and [true] was never emitted. *)
Theorem verification_decides_the_login :
  forall (w : world) (s : state) (accounts : list string)
         (n signature address : string) (verdict : response value),
    provider s = true ->
    result (accounts_reply w) = Resolved accounts ->
    result (nonce_reply w) = Resolved (Body {| nonce := Some n |}) ->
    result (signature_reply w) = Resolved signature ->
    result (address_reply w) = Resolved address ->
    result (verify_reply w) = Resolved verdict ->
    let run := requestLogin w s in
    In (GET_verify_message n address signature) (requests (since s (snd run)))
    /\ match verdict with
       | Body valid =>
           if strictly_true valid
           then fst run = Resolved (account (snd run))
                /\ isAuthenticated (snd run) = true
                /\ exists before,
                     since s (snd run) = before ++ [isAuthenticated_next true]
           else fst run = Rejected (Error "Signature invalid")
                /\ isAuthenticated (snd run) = false
                /\ ~ In (isAuthenticated_next true) (since s (snd run))
       | Absent missing =>
           fst run = Rejected (cannot_read missing "valid")
           /\ isAuthenticated (snd run) = false
           /\ ~ In (isAuthenticated_next true) (since s (snd run))
       end.
Proof.
  intros w s accounts n signature address verdict Hp Ha Hn Hs Had Hv run.
  subst run. destruct (requestLogin w s) as [r s'] eqn:H.
  exact (requestLogin_verification w s r s' accounts n signature address verdict
           H Hp Ha Hn Hs Had Hv).
Qed.

Lemma verification_decides_the_login_accepting :
  let run := requestLogin Sample.accepting (Sample.connected Sample.ropsten) in
  In (GET_verify_message "abc123" "0xA11ce" "0x5160")
     (requests (since (Sample.connected Sample.ropsten) (snd run)))
  /\ fst run = Resolved (account (snd run))
  /\ isAuthenticated (snd run) = true
  /\ exists before,
       since (Sample.connected Sample.ropsten) (snd run)
       = before ++ [isAuthenticated_next true].
Proof.
  exact (verification_decides_the_login
           Sample.accepting (Sample.connected Sample.ropsten)
           ["0xA11ce"] "abc123" "0x5160" "0xA11ce" (Body (Bool true))
           eq_refl eq_refl eq_refl eq_refl eq_refl eq_refl).
Defined.

(** A verify endpoint that answers with an empty body, which the HTTP
    client hands over as [null]: the login reaches its verification step
    and fails there, but not with [Signature invalid]. *)
Lemma empty_verify_response_is_not_signature_invalid :
  let run := requestLogin Scene.bodyless (Sample.connected Sample.ropsten) in
  reaches_verifying Scene.bodyless (Sample.connected Sample.ropsten) = true
  /\ result (verify_reply Scene.bodyless) = Resolved (Absent null)
  /\ fst run
     = Rejected (TypeError "Cannot read properties of null (reading 'valid')")
  /\ fst run <> Rejected (Error "Signature invalid").
Proof.
  split; [vm_compute; reflexivity|]. split; [reflexivity|].
  split; [vm_compute; reflexivity|].
  intros H. vm_compute in H. discriminate H.
Qed.

(** The other branch, at a backend that answers [valid: false] while the
    wallet switches account. *)
Example login_refused_by_the_backend :
  let run := requestLogin Sample.refusing (Sample.connected Sample.ropsten) in
  fst run = Rejected (Error "Signature invalid")
  /\ isAuthenticated (snd run) = false
  /\ account (snd run) = Some "0xB0b".
Proof. repeat split. Qed.

(** X5. A verify response that is [null] or [undefined] has no [valid] to
    read: the login fails on the property access with the [TypeError] the
    engine raises for that value, which names it, not with
    [Signature invalid], and [isAuthenticated] is false. *)
Lemma verification_without_a_body w s r s' missing :
  requestLogin w s = (r, s') ->
  reaches_verifying w s = true ->
  result (verify_reply w) = Resolved (Absent missing) ->
  r = Rejected (TypeError ("Cannot read properties of " ++ nullish_name missing
                           ++ " (reading 'valid')"))
  /\ isAuthenticated s' = false.
Proof.
  intros H Hr Hv.
  destruct (requestLogin_session w s r s' H) as (_ & A & C).
  unfold handshake_complete in C. rewrite Hr, Hv in C. simpl in C.
  rewrite C in A. split; [|exact A].
  unfold reaches_verifying in Hr.
  login_cases H; try reflexivity; try discriminate;
    repeat match goal with
           | R : _ = _ |- _ => rewrite R in Hr; clear R
           end;
    simpl in Hr; discriminate.
Qed.

(** C6. Every run of the login flow starts by setting [isAuthenticated]
    to false, before any call or any other effect. When the run ends,
    [isAuthenticated] is true exactly when the login resolved, and the
    login resolves exactly on the complete handshake; so whatever the
    stage that fails (no nonce, no signature, no address, a signature
    found invalid, or any rejection on the way), [isAuthenticated] is
    false at the end. *)
Theorem login_authenticates_only_on_complete_handshake :
  forall (w : world) (s : state),
    let run := requestLogin w s in
    (exists rest, since s (snd run) = isAuthenticated_next false :: rest)
    /\ isAuthenticated (snd run) = is_resolved (fst run)
    /\ is_resolved (fst run) = handshake_complete w s.
Proof.
  intros w s run. subst run. destruct (requestLogin w s) as [r s'] eqn:H.
  exact (requestLogin_session w s r s' H).
Qed.

(** X6. The errors of the stages that come before the verification, once
    account access is granted: a rejected nonce request, signature or address
    rejects the login with the collaborator's own error; a nonce response
    that is [null] or [undefined] fails on the property access with the
    [TypeError] that names that value; a body without a nonce gives
    [Could not generate nonce!]. *)
Lemma login_stage_errors w s r s' :
  requestLogin w s = (r, s') ->
  provider s = true ->
  is_resolved (result (accounts_reply w)) = true ->
  match result (nonce_reply w) with
  | Rejected e => r = Rejected e
  | Resolved (Absent missing) =>
      r = Rejected (TypeError ("Cannot read properties of " ++ nullish_name missing
                               ++ " (reading 'nonce')"))
  | Resolved (Body {| nonce := None |}) => r = Rejected (Error "Could not generate nonce!")
  | Resolved (Body {| nonce := Some _ |}) =>
      match result (signature_reply w), result (address_reply w) with
      | Rejected e, _ => r = Rejected e
      | Resolved _, Rejected e => r = Rejected e
      | Resolved _, Resolved _ => True
      end
  end.
Proof.
  intros H Hp Ha. reduce_in H. rewrite Hp in H.
  login_cases H; try reflexivity; try discriminate; exact I.
Qed.

(** X7. Without a provider there is no signer: the login still asks the
    backend for a nonce and, when one comes, stops with
    [Could not sign message!]; the wallet is never called. *)
Lemma login_without_provider w s r s' n :
  requestLogin w s = (r, s') ->
  provider s = false ->
  result (nonce_reply w) = Resolved (Body {| nonce := Some n |}) ->
  r = Rejected (Error "Could not sign message!")
  /\ requests (since s s') = [GET_generatenonce].
Proof.
  intros H Hp Hn. reduce_in H. rewrite Hp in H.
  login_cases H; try discriminate.
  split; [reflexivity|]. summarise. reflexivity.
Qed.

(** *** The login flow and the events around it *)

Lemma deliver_app evs1 evs2 s : deliver (evs1 ++ evs2) s = deliver evs2 (deliver evs1 s).
Proof. unfold deliver. apply fold_left_app. Qed.

Lemma handle_keeps_account ev s :
  Streams.is_accountsChanged ev = false -> account (handle ev s) = account s.
Proof.
  destruct ev as [accounts | chainId | r |]; cbn [Streams.is_accountsChanged];
    intros H; try discriminate H.
  - unfold handle, onChainChanged. cbn [provider record].
    destruct (provider s); reflexivity.
  - destruct r; reflexivity.
  - reflexivity.
Qed.

Lemma deliver_keeps_account evs s :
  existsb Streams.is_accountsChanged evs = false -> account (deliver evs s) = account s.
Proof.
  revert s. induction evs as [|ev evs IH]; intros s H; [reflexivity|].
  cbn [existsb] in H. apply orb_false_iff in H. destruct H as [He Hl].
  change (deliver (ev :: evs) s) with (deliver evs (handle ev s)).
  rewrite (IH _ Hl). apply handle_keeps_account, He.
Qed.

Lemma account_after_accountsChanged accounts s :
  account (onAccountsChanged accounts s)
  = match accounts with
    | Some (first :: _) => Some first
    | _ => None
    end.
Proof. destruct accounts as [[|a [|b l]]|]; reflexivity. Qed.

Lemma deliver_last_account evs accounts later s :
  existsb Streams.is_accountsChanged later = false ->
  account (deliver (evs ++ accountsChanged accounts :: later) s)
  = match accounts with
    | Some (first :: _) => Some first
    | _ => None
    end.
Proof.
  intros H. rewrite deliver_app.
  change (deliver (accountsChanged accounts :: later) (deliver evs s))
    with (deliver later (onAccountsChanged accounts (deliver evs s))).
  rewrite (deliver_keeps_account _ _ H). apply account_after_accountsChanged.
Qed.

(** X2. After any sequence of wallet events and logouts, the account is
    the one named by the last [accountsChanged] event of the sequence, the
    first of its list or none, whatever came before it and whatever chain
    events, network answers or logouts came after; and [isAuthenticated]
    is false. *)
Theorem last_accountsChanged_decides_the_account :
  forall (evs later : list event) (accounts : option (list string)) (s : state),
    existsb Streams.is_accountsChanged later = false ->
    let s' := deliver (evs ++ accountsChanged accounts :: later) s in
    account s' = match accounts with
                 | Some (first :: _) => Some first
                 | _ => None
                 end
    /\ isAuthenticated s' = false.
Proof.
  intros evs later accounts s H s'. subst s'. split.
  - apply deliver_last_account, H.
  - rewrite deliver_app.
    change (deliver (accountsChanged accounts :: later) (deliver evs s))
      with (deliver later (onAccountsChanged accounts (deliver evs s))).
    apply deliver_unauthenticated. reflexivity.
Qed.

Lemma last_accountsChanged_decides_the_account_sample :
  let s' :=
    deliver ([accountsChanged (Some ["0xA11ce"]); chainChanged "0x3"]
             ++ accountsChanged (Some ["0xB0b"; "0xA11ce"])
             :: [getNetwork_settled (Resolved Sample.ropsten); logout_called])
            (MetaMaskService true) in
  account s' = Some "0xB0b" /\ isAuthenticated s' = false.
Proof.
  exact (last_accountsChanged_decides_the_account
           [accountsChanged (Some ["0xA11ce"]); chainChanged "0x3"]
           [getNetwork_settled (Resolved Sample.ropsten); logout_called]
           (Some ["0xB0b"; "0xA11ce"]) (MetaMaskService true) eq_refl).
Defined.

(** X3. The handler of [accountsChanged] warns on the console exactly when
    the wallet reports more than one account; it never calls the wallet or
    the backend and leaves the network and the provider alone. *)
Theorem accountsChanged_warns_on_several_accounts :
  forall (accounts : option (list string)) (s : state),
    let s' := onAccountsChanged accounts s in
    (In (console_warn "More than one account connected") (since s s')
     <-> exists first second others, accounts = Some (first :: second :: others))
    /\ requests (since s s') = []
    /\ network s' = network s
    /\ provider s' = provider s.
Proof.
  intros accounts s s'. subst s'.
  destruct accounts as [[|a [|b l]]|];
    (erewrite since_app
       by (unfold onAccountsChanged, set_account, set_isAuthenticated, record;
           cbn [trace List.length Nat.ltb Nat.leb]; rewrite <- ?app_assoc;
           cbn [app]; reflexivity));
    (split; [|repeat split]).
  - split; [intros [H|[H|[H|[]]]]; discriminate H | intros (x & y & z & H); discriminate H].
  - split; [intros [H|[H|[H|[]]]]; discriminate H | intros (x & y & z & H); discriminate H].
  - split; [intros _; exists a, b, l; reflexivity | intros _; right; left; reflexivity].
  - split; [intros [H|[H|[H|[]]]]; discriminate H | intros (x & y & z & H); discriminate H].
Qed.

(** The state a login ends in when the backend says [valid: true]: the
    one the verification call left, authenticated. *)
Lemma requestLogin_success_state w s accounts n signature address :
  provider s = true ->
  result (accounts_reply w) = Resolved accounts ->
  result (nonce_reply w) = Resolved (Body {| nonce := Some n |}) ->
  result (signature_reply w) = Resolved signature ->
  result (address_reply w) = Resolved address ->
  result (verify_reply w) = Resolved (Body (Bool true)) ->
  exists before,
    account (snd (requestLogin w s))
    = account (deliver (meanwhile (verify_reply w)) before).
Proof.
  intros Hp Ha Hn Hs Had Hv.
  cbv beta iota delta [requestLogin getSigner requestAccount generateNonce
                       verifyMessage bind gets modify ret throw await].
  repeat (cbn [provider set_isAuthenticated record nonce fst snd strictly_true];
          rewrite ?deliver_provider;
          cbn [provider set_isAuthenticated record nonce fst snd strictly_true];
          rewrite ?Hp, ?Ha, ?Hn, ?Hs, ?Had, ?Hv).
  eexists. reflexivity.
Qed.

(** X4. A login that succeeds returns the account the service holds when
    the verification ends, not the address that signed: if the wallet
    switches account while the backend verifies, the login resolves with
    the new account and [isAuthenticated] is true, although the address
    sent for verification is the one the signer gave. *)
Theorem login_returns_the_account_held_at_the_end :
  forall (w : world) (s : state) (accounts : list string)
         (n signature address : string)
         (evs later : list event) (switched : option (list string)),
    provider s = true ->
    result (accounts_reply w) = Resolved accounts ->
    result (nonce_reply w) = Resolved (Body {| nonce := Some n |}) ->
    result (signature_reply w) = Resolved signature ->
    result (address_reply w) = Resolved address ->
    result (verify_reply w) = Resolved (Body (Bool true)) ->
    meanwhile (verify_reply w) = evs ++ accountsChanged switched :: later ->
    existsb Streams.is_accountsChanged later = false ->
    let run := requestLogin w s in
    fst run = Resolved (match switched with
                        | Some (first :: _) => Some first
                        | _ => None
                        end)
    /\ isAuthenticated (snd run) = true
    /\ In (GET_verify_message n address signature) (requests (since s (snd run))).
Proof.
  intros w s accounts n signature address evs later switched
         Hp Ha Hn Hs Had Hv Hm Hl run. subst run.
  destruct (requestLogin_success_state w s accounts n signature address
              Hp Ha Hn Hs Had Hv) as [before Hacc].
  rewrite Hm, (deliver_last_account _ _ _ _ Hl) in Hacc.
  destruct (requestLogin w s) as [r s'] eqn:H.
  destruct (requestLogin_verification w s r s' accounts n signature address
              (Body (Bool true)) H Hp Ha Hn Hs Had Hv) as (V & R & A & _).
  cbn [fst snd] in *. rewrite R, Hacc. auto.
Qed.

Lemma login_returns_the_account_held_at_the_end_switching :
  let run := requestLogin Scene.switching (Sample.connected Sample.ropsten) in
  fst run = Resolved (Some "0xB0b")
  /\ isAuthenticated (snd run) = true
  /\ In (GET_verify_message "abc123" "0xA11ce" "0x5160")
        (requests (since (Sample.connected Sample.ropsten) (snd run))).
Proof.
  exact (login_returns_the_account_held_at_the_end
           Scene.switching (Sample.connected Sample.ropsten)
           ["0xA11ce"] "abc123" "0x5160" "0xA11ce"
           [] [chainChanged "0x1"] (Some ["0xB0b"])
           eq_refl eq_refl eq_refl eq_refl eq_refl eq_refl eq_refl eq_refl).
Defined.

Lemma verification_without_a_body_sample :
  let run := requestLogin Scene.bodyless (Sample.connected Sample.ropsten) in
  fst run = Rejected (TypeError "Cannot read properties of null (reading 'valid')")
  /\ isAuthenticated (snd run) = false.
Proof.
  exact (verification_without_a_body
           Scene.bodyless (Sample.connected Sample.ropsten)
           (fst (requestLogin Scene.bodyless (Sample.connected Sample.ropsten)))
           (snd (requestLogin Scene.bodyless (Sample.connected Sample.ropsten)))
           null (surjective_pairing _) eq_refl eq_refl).
Defined.

Lemma login_stage_errors_declined :
  fst (requestLogin Sample.declining (Sample.connected Sample.ropsten))
  = Rejected (Wallet_error 4001 "User denied message signature.").
Proof.
  exact (login_stage_errors
           Sample.declining (Sample.connected Sample.ropsten)
           (fst (requestLogin Sample.declining (Sample.connected Sample.ropsten)))
           (snd (requestLogin Sample.declining (Sample.connected Sample.ropsten)))
           (surjective_pairing _) eq_refl eq_refl).
Defined.

Lemma login_without_provider_sample :
  let run := requestLogin Sample.accepting (MetaMaskService false) in
  fst run = Rejected (Error "Could not sign message!")
  /\ requests (since (MetaMaskService false) (snd run)) = [GET_generatenonce].
Proof.
  exact (login_without_provider
           Sample.accepting (MetaMaskService false)
           (fst (requestLogin Sample.accepting (MetaMaskService false)))
           (snd (requestLogin Sample.accepting (MetaMaskService false)))
           "abc123" (surjective_pairing _) eq_refl eq_refl).
Defined.

(** X9. The receipt lookup is a single call: with a provider the wallet is
    asked once for the receipt of the given hash and its answer, a rejection
    included, is the result; without a provider nothing is asked and the
    result is [undefined]. *)
Theorem checkTransactionConfirmation_is_one_lookup :
  forall (w : world) (txHash : string) (s : state),
    let run := checkTransactionConfirmation w txHash s in
    if provider s
    then fst run = result (receipt_reply w)
         /\ requests (since s (snd run)) = [getTransactionReceipt txHash]
    else run = (Resolved Undefined, s).
Proof.
  intros w txHash s run. subst run.
  destruct (checkTransactionConfirmation w txHash s) as [r s'] eqn:H.
  reduce_in H. destruct (provider s) eqn:P.
  - reduce_in H. explore H; injection H as <- <-; cbn [fst snd];
      (split; [reflexivity | summarise; reflexivity]).
  - reduce_in H. symmetry. exact H.
Qed.

(** *** Transaction submission *)

Variable parseEther : string -> thrown + Z.
Variable toHexString : Z -> string.

(** The guard on the class of network: production intent off the main
    network, or a test on the main network, is refused at once and the
    service is left exactly as it was. *)
Lemma requestSendTransaction_wrong_network
  (w : world) (isProd : bool) (toAdress amountETH : string) (s : state) :
  isProd = negb (is_mainnet (option_map chainId (network s))) ->
  requestSendTransaction w parseEther toHexString isProd toAdress amountETH s
  = (Rejected (Error (if isProd then "Network should be Ethereum mainnet"
                      else "Network should be a testnet")), s).
Proof.
  intros H. unfold requestSendTransaction, bind, gets, throw. simpl.
  destruct (is_mainnet (option_map chainId (network s))); subst isProd; reflexivity.
Qed.

(** No failure of the wallet is absorbed by the submission, and nothing is
    asked twice. *)
Lemma requestSendTransaction_propagates
  (w : world) (isProd : bool) (toAdress amountETH : string) (s s' : state)
  (r : outcome string) :
  requestSendTransaction w parseEther toHexString isProd toAdress amountETH s = (r, s') ->
  (forall e, In e (raised (since s s')) -> r = Rejected e)
  /\ (List.length (raised (since s s')) <= 1)%nat
  /\ NoDup (requests (since s s')).
Proof.
  intros H. reduce_in H. explore H; injection H as <- <-.
  all: summarise; cbn [In List.length].
  all: split; [intros ? [<- | []] || intros ? []; reflexivity|].
  all: split; [lia|].
  all: repeat constructor; cbn [In]; intuition discriminate.
Qed.

(** X8. When the network is of the intended class, the wallet grants
    account access, the amount converts and the wallet accepts the
    transaction, the submission makes two calls, the account request and then
    the transaction to the given address with the converted amount in
    hexadecimal, and resolves with the hash of the wallet's answer. *)
Lemma requestSendTransaction_sends
  (w : world) (isProd : bool) (toAdress amountETH : string) (s s' : state)
  (r : outcome string) (accounts : list string) (wei : Z) (tx : TransactionResponse) :
  requestSendTransaction w parseEther toHexString isProd toAdress amountETH s = (r, s') ->
  provider s = true ->
  isProd = is_mainnet (option_map chainId (network s)) ->
  result (accounts_reply w) = Resolved accounts ->
  parseEther amountETH = inr wei ->
  result (transaction_reply w) = Resolved tx ->
  r = Resolved (hash tx)
  /\ requests (since s s')
     = [eth_requestAccounts; sendTransaction toAdress (toHexString wei)].
Proof.
  intros H Hp Hn Ha Hw Ht. reduce_in H. rewrite Hw in H.
  destruct (is_mainnet (option_map chainId (network s))); subst isProd;
    cbn [andb negb] in H; reduce_in H; rewrite Hp in H; reduce_in H;
    explore H; try discriminate; injection H as <- <-.
  all: split; [congruence|summarise; reflexivity].
Qed.

(** X10. An amount that does not convert is found out only after the
    wallet was asked for account access: the submission is rejected with the
    error of the conversion and no transaction is sent. *)
Lemma requestSendTransaction_invalid_amount
  (w : world) (isProd : bool) (toAdress amountETH : string) (s s' : state)
  (r : outcome string) (accounts : list string) (e : thrown) :
  requestSendTransaction w parseEther toHexString isProd toAdress amountETH s = (r, s') ->
  provider s = true ->
  isProd = is_mainnet (option_map chainId (network s)) ->
  result (accounts_reply w) = Resolved accounts ->
  parseEther amountETH = inl e ->
  r = Rejected e /\ requests (since s s') = [eth_requestAccounts].
Proof.
  intros H Hp Hn Ha Hw. reduce_in H. rewrite Hw in H.
  destruct (is_mainnet (option_map chainId (network s))); subst isProd;
    cbn [andb negb] in H; reduce_in H; rewrite Hp in H; reduce_in H;
    explore H; try discriminate; injection H as <- <-.
  all: split; [reflexivity | summarise; reflexivity].
Qed.

(** X11. Without a provider a submission that passes the network guard is
    rejected with [Could not send transaction]: nothing is asked of the
    wallet, the amount is not even converted, the service is left as it
    was. *)
Lemma requestSendTransaction_without_provider
  (w : world) (isProd : bool) (toAdress amountETH : string) (s : state) :
  provider s = false ->
  isProd = is_mainnet (option_map chainId (network s)) ->
  requestSendTransaction w parseEther toHexString isProd toAdress amountETH s
  = (Rejected (Error "Could not send transaction"), s).
Proof.
  intros Hp Hn.
  cbv beta iota delta [requestSendTransaction getSigner requestAccount
                       bind gets modify ret throw].
  destruct (is_mainnet (option_map chainId (network s))); subst isProd;
    cbn [andb negb]; repeat (rewrite Hp; cbv beta iota); reflexivity.
Qed.

(** X12. As long as no network is known, the guard takes the network for a
    test network: a submission with production intent is refused and the
    service left as it was, one with test intent goes on to the wallet. *)
Lemma requestSendTransaction_unknown_network
  (w : world) (isProd : bool) (toAdress amountETH : string) (s s' : state)
  (r : outcome string) :
  requestSendTransaction w parseEther toHexString isProd toAdress amountETH s = (r, s') ->
  network s = None ->
  provider s = true ->
  if isProd
  then r = Rejected (Error "Network should be Ethereum mainnet") /\ s' = s
  else exists rest, requests (since s s') = eth_requestAccounts :: rest.
Proof.
  intros H Hn Hp. reduce_in H. rewrite Hn in H. cbn [option_map is_mainnet] in H.
  destruct isProd; cbn [andb negb] in H; reduce_in H.
  - injection H as <- <-. split; reflexivity.
  - rewrite Hp in H. reduce_in H.
    explore H; injection H as <- <-; eexists; summarise; reflexivity.
Qed.

(** X13. Neither a submission nor a receipt lookup ever authenticates:
    they emit no [true] on [isAuthenticated$], and leave [isAuthenticated]
    false if it was. *)
Lemma only_login_authenticates
  (w : world) (isProd : bool) (toAdress amountETH txHash : string) (s : state) :
  let sent :=
    snd (requestSendTransaction w parseEther toHexString isProd toAdress amountETH s) in
  let checked := snd (checkTransactionConfirmation w txHash s) in
  (~ In (isAuthenticated_next true) (since s sent)
   /\ (isAuthenticated s = false -> isAuthenticated sent = false))
  /\ (~ In (isAuthenticated_next true) (since s checked)
      /\ (isAuthenticated s = false -> isAuthenticated checked = false)).
Proof.
  intros sent checked. subst sent checked. split.
  - destruct (requestSendTransaction w parseEther toHexString
                isProd toAdress amountETH s) as [r s'] eqn:H.
    cbn [snd]. reduce_in H. explore H; injection H as <- <-.
    all: split;
      [ quiet_handlers;
        first [ rewrite since_refl
              | erewrite since_app by (whole_trace; reflexivity) ];
        repeat (progress cbn [In] || rewrite in_app_iff);
        intuition discriminate
      | intros A; unfold isAuthenticated in *;
        repeat match goal with
               | U : _ -> _isAuthenticated ?x = false |- _isAuthenticated ?x = false =>
                   apply U
               end;
        exact A ].
  - destruct (checkTransactionConfirmation w txHash s) as [r s'] eqn:H.
    cbn [snd]. reduce_in H. explore H; injection H as <- <-.
    all: split;
      [ quiet_handlers;
        first [ rewrite since_refl
              | erewrite since_app by (whole_trace; reflexivity) ];
        repeat (progress cbn [In] || rewrite in_app_iff);
        intuition discriminate
      | intros A; unfold isAuthenticated in *;
        repeat match goal with
               | U : _ -> _isAuthenticated ?x = false |- _isAuthenticated ?x = false =>
                   apply U
               end;
        exact A ].
Qed.

(** X21. A submission looks at the provider and at the chain id of the
    network, and at nothing else of the session: two services that agree on
    these get the same result from the same wallet, whatever their account
    and whether or not they are authenticated. *)
Lemma submission_reads_only_provider_and_network
  (w : world) (isProd : bool) (toAdress amountETH : string) (s1 s2 : state) :
  provider s1 = provider s2 ->
  option_map chainId (network s1) = option_map chainId (network s2) ->
  fst (requestSendTransaction w parseEther toHexString isProd toAdress amountETH s1)
  = fst (requestSendTransaction w parseEther toHexString isProd toAdress amountETH s2).
Proof.
  intros Hp Hn.
  destruct (requestSendTransaction w parseEther toHexString
              isProd toAdress amountETH s1) as [r1 t1] eqn:H1.
  destruct (requestSendTransaction w parseEther toHexString
              isProd toAdress amountETH s2) as [r2 t2] eqn:H2.
  cbn [fst]. reduce_in H1. reduce_in H2. rewrite Hn in H1.
  explore H1; explore H2; congruence.
Qed.

End Operations.

(** ** The older service: errors end in the console *)

Section LegacyService.
Import JS.

Lemma legacy_since_app s s' l :
  Legacy.trace s' = Legacy.trace s ++ l -> Legacy.since s s' = l.
Proof. intros E. unfold Legacy.since. rewrite E. apply skipn_prefix. Qed.

Ltac legacy_run :=
  unfold Legacy.signMessage, Legacy.sendTransaction, Legacy.window_ethereum,
    Legacy.await, try_catch, bind, modify, ret, throw;
  cbn [Legacy.ethereum Legacy.requestAccounts_reply Legacy.signature_reply
       Legacy.address_reply Legacy.sendTransaction_reply failure].

Ltac legacy_effects :=
  erewrite legacy_since_app
    by (cbn [Legacy.trace Legacy.record]; rewrite <- ?app_assoc; cbn [app];
        reflexivity).

(** The effects of a run end with the given one. *)
Ltac legacy_last_effect :=
  match goal with
  | |- exists before, ?l = before ++ [_] => exists (removelast l); reflexivity
  end.

(** [signMessage] always resolves: with the signature and the address
    when the wallet gave both, with [null] after any failure, which it
    only writes to the console, as the last thing it does. *)
Lemma legacy_signMessage_resolves (w : Legacy.world) (message : string) (s : Legacy.state) :
  exists answer s',
    Legacy.signMessage w message s = (Resolved answer, s')
    /\ (Legacy.raised (Legacy.since s s') <> [] -> answer = None)
    /\ (forall e, In e (Legacy.raised (Legacy.since s s')) ->
        exists before,
          Legacy.since s s'
          = before ++ [Legacy.console_log ("Unable to sign: " ++ thrown_to_string e)])
    /\ (List.length (Legacy.raised (Legacy.since s s')) <= 1)%nat
    /\ NoDup (Legacy.requests (Legacy.since s s')).
Proof.
  destruct w as [eth accounts signature address sent]. legacy_run.
  destruct eth as [eth|]; [destruct accounts; [destruct signature; [destruct address|]|]|];
    cbn [failure]; do 2 eexists; (split; [reflexivity|]); legacy_effects;
    cbn [Legacy.raised Legacy.requests List.length];
    (split; [congruence|]);
    (split; [intros failed He; cbn [In] in He;
             first [contradiction | destruct He as [<- | []]; legacy_last_effect]|]);
    (split; [lia|]);
    repeat constructor; cbn [In]; intuition discriminate.
Qed.

(** X14. With a wallet that grants access, signs and gives its address,
    [signMessage] resolves with the signature and the address after three
    requests in this order: account access, signature of the message,
    address; nothing is written to the console. *)
Lemma legacy_signMessage_signs
  (w : Legacy.world) (eth : Legacy.Ethereum) (message : string) (s : Legacy.state)
  (accounts : list string) (signature address : string) :
  Legacy.ethereum w = Some eth ->
  Legacy.requestAccounts_reply w = Resolved accounts ->
  Legacy.signature_reply w = Resolved signature ->
  Legacy.address_reply w = Resolved address ->
  exists s',
    Legacy.signMessage w message s = (Resolved (Some (signature, address)), s')
    /\ Legacy.since s s'
       = [Legacy.request Legacy.eth_requestAccounts;
          Legacy.settled Legacy.eth_requestAccounts None;
          Legacy.request (Legacy.signer_signMessage message);
          Legacy.settled (Legacy.signer_signMessage message) None;
          Legacy.request Legacy.signer_getAddress;
          Legacy.settled Legacy.signer_getAddress None].
Proof.
  intros He Ha Hs Had. destruct w as [e a sg ad sent].
  cbn [Legacy.ethereum Legacy.requestAccounts_reply Legacy.signature_reply
       Legacy.address_reply] in *. subst e a sg ad.
  legacy_run. eexists. split; [reflexivity|]. legacy_effects. reflexivity.
Qed.

(** X15. [signMessage] stops at the first failure: without a wallet it asks
    nothing, after a refused account access it does not ask for a
    signature, after a refused signature it does not ask for the address. *)
Lemma legacy_signMessage_stops_at_the_first_failure
  (w : Legacy.world) (message : string) (s : Legacy.state) :
  let asked :=
    Legacy.requests (Legacy.since s (snd (Legacy.signMessage w message s))) in
  (Legacy.ethereum w = None -> asked = [])
  /\ (is_resolved (Legacy.requestAccounts_reply w) = false ->
      ~ In (Legacy.signer_signMessage message) asked)
  /\ (is_resolved (Legacy.signature_reply w) = false ->
      ~ In Legacy.signer_getAddress asked).
Proof.
  destruct w as [eth accounts signature address sent]. legacy_run.
  destruct eth as [eth|]; [destruct accounts; [destruct signature; [destruct address|]|]|];
    cbn [failure snd is_resolved]; legacy_effects;
    cbn [Legacy.requests];
    (split; [intros H; first [discriminate H | reflexivity]|]);
    (split; intros H; try discriminate H; cbn [In]; intuition discriminate).
Qed.

Variable StringToNumber : string -> number.

(** [sendTransaction] always resolves too: with the wallet's answer, or
    with [undefined] after any failure, which it only writes to the
    console, as the last thing it does. *)
Lemma legacy_sendTransaction_resolves
  (w : Legacy.world) (isProd : bool) (fromAddress toAdress : string)
  (amountETH : number) (s : Legacy.state) :
  exists answer s',
    Legacy.sendTransaction w StringToNumber isProd fromAddress toAdress amountETH s
    = (Resolved answer, s')
    /\ (Legacy.raised (Legacy.since s s') <> [] -> answer = Undefined)
    /\ (forall e, In e (Legacy.raised (Legacy.since s s')) ->
        exists before,
          Legacy.since s s'
          = before ++ [Legacy.console_log
                         ("Unable to send transaction: " ++ thrown_to_string e)])
    /\ (List.length (Legacy.raised (Legacy.since s s')) <= 1)%nat
    /\ NoDup (Legacy.requests (Legacy.since s s')).
Proof.
  destruct w as [eth accounts signature address sent]. legacy_run.
  destruct eth as [eth|]; cbn [failure].
  - destruct (isProd && negb (Legacy.loosely_equals_one StringToNumber
                                (Legacy.ethereum_networkVersion eth)));
      [|destruct (negb isProd && Legacy.loosely_equals_one StringToNumber
                                   (Legacy.ethereum_networkVersion eth));
        [|destruct sent]];
      cbn [failure]; do 2 eexists; (split; [reflexivity|]); legacy_effects;
      cbn [Legacy.raised Legacy.requests List.length];
      (split; [congruence|]);
      (split; [intros failed He; cbn [In] in He;
               first [contradiction | destruct He as [<- | []]; legacy_last_effect]|]);
      (split; [lia|]);
      repeat constructor; cbn [In]; intuition discriminate.
  - do 2 eexists. split; [reflexivity|]. legacy_effects.
    cbn [Legacy.raised Legacy.requests List.length].
    split; [congruence|]. split; [intros e []|]. split; [lia|]. constructor.
Qed.

(** On the wrong class of network the older service throws the same two
    messages, as strings, into its own [catch]: the text goes to the
    console, the call resolves with [undefined], the wallet is not asked. *)
Lemma legacy_sendTransaction_wrong_network
  (w : Legacy.world) (eth : Legacy.Ethereum) (isProd : bool)
  (fromAddress toAdress : string) (amountETH : number) (s : Legacy.state) :
  Legacy.ethereum w = Some eth ->
  isProd = negb (Legacy.loosely_equals_one StringToNumber
                   (Legacy.ethereum_networkVersion eth)) ->
  Legacy.sendTransaction w StringToNumber isProd fromAddress toAdress amountETH s
  = (Resolved Undefined,
     Legacy.record
       (Legacy.console_log
          (if isProd
           then "Unable to send transaction: Network should be Ethereum mainnet"
           else "Unable to send transaction: Network should be a testnet")) s).
Proof.
  intros He Hn. legacy_run. rewrite He.
  destruct (Legacy.loosely_equals_one StringToNumber
              (Legacy.ethereum_networkVersion eth)); subst isProd; reflexivity.
Qed.

(** X16. When the wallet's network is of the intended class and the wallet
    accepts, [sendTransaction] resolves with the wallet's answer after one
    request, made without asking for account access first: the transaction
    from and to the given addresses, its value the rounded product in
    base 16, its chain id always [0x3]. *)
Lemma legacy_sendTransaction_sends
  (w : Legacy.world) (eth : Legacy.Ethereum) (isProd : bool)
  (fromAddress toAdress : string) (amountETH : number) (s : Legacy.state)
  (txHash : JS.value) :
  Legacy.ethereum w = Some eth ->
  isProd = Legacy.loosely_equals_one StringToNumber
             (Legacy.ethereum_networkVersion eth) ->
  Legacy.sendTransaction_reply w = Resolved txHash ->
  exists s',
    Legacy.sendTransaction w StringToNumber isProd fromAddress toAdress amountETH s
    = (Resolved txHash, s')
    /\ Legacy.requests (Legacy.since s s')
       = [Legacy.eth_sendTransaction
            {| Legacy.nonce := "0x00";
               Legacy.to := toAdress;
               Legacy.from := fromAddress;
               Legacy.value := Legacy.toString (Legacy.amountWEIDec amountETH) 16;
               Legacy.data :=
                 "0x7f7465737432000000000000000000000000000000000000000000000000000000600057";
               Legacy.chainId := "0x3" |}].
Proof.
  intros He Hn Ht. destruct w as [e a sg ad sent].
  cbn [Legacy.ethereum Legacy.sendTransaction_reply] in *. subst e sent.
  legacy_run.
  destruct (Legacy.loosely_equals_one StringToNumber
              (Legacy.ethereum_networkVersion eth)); subst isProd;
    cbn [andb negb failure]; eexists; (split; [reflexivity|]);
    legacy_effects; reflexivity.
Qed.

(** X17. On a page without a wallet both operations of the older service
    resolve, [signMessage] with [null] and [sendTransaction] with
    [undefined], after one console line and no request. *)
Lemma legacy_operations_without_a_wallet
  (w : Legacy.world) (isProd : bool) (message fromAddress toAdress : string)
  (amountETH : number) (s : Legacy.state) :
  Legacy.ethereum w = None ->
  (exists text,
     Legacy.signMessage w message s
     = (Resolved None, Legacy.record (Legacy.console_log text) s)
     /\ includes "TypeError" text = true)
  /\ (exists text,
        Legacy.sendTransaction w StringToNumber isProd fromAddress toAdress amountETH s
        = (Resolved Undefined, Legacy.record (Legacy.console_log text) s)
        /\ includes "TypeError" text = true).
Proof.
  intros He. destruct w as [e a sg ad sent]. cbn [Legacy.ethereum] in He. subst e.
  legacy_run. split; eexists; split; reflexivity.
Qed.

(** X18. The older service keeps no state of its own in these operations:
    what [signMessage] and [sendTransaction] answer does not depend on the
    fields of the service, the [networkVersion] field that
    [setNetworkVersion] writes included, and they change none of them. *)
Lemma legacy_operations_ignore_the_fields
  (w : Legacy.world) (isProd : bool) (message fromAddress toAdress : string)
  (amountETH : number) (s1 s2 : Legacy.state) (version : Z) :
  (fst (Legacy.signMessage w message s1) = fst (Legacy.signMessage w message s2)
   /\ LegacyQueries.fields (snd (Legacy.signMessage w message s1))
      = LegacyQueries.fields s1)
  /\ (fst (Legacy.sendTransaction w StringToNumber isProd fromAddress toAdress
             amountETH s1)
      = fst (Legacy.sendTransaction w StringToNumber isProd fromAddress toAdress
               amountETH s2)
      /\ fst (Legacy.sendTransaction w StringToNumber isProd fromAddress toAdress
                amountETH (LegacyQueries.setNetworkVersion version s1))
         = fst (Legacy.sendTransaction w StringToNumber isProd fromAddress toAdress
                  amountETH s1)
      /\ LegacyQueries.fields
           (snd (Legacy.sendTransaction w StringToNumber isProd fromAddress
                   toAdress amountETH s1))
         = LegacyQueries.fields s1).
Proof.
  destruct w as [eth accounts signature address sent]. legacy_run. split.
  - destruct eth as [eth|];
      [destruct accounts; [destruct signature; [destruct address|]|]|];
      split; reflexivity.
  - destruct eth as [eth|]; cbn [failure].
    + destruct (isProd && negb (Legacy.loosely_equals_one StringToNumber
                                  (Legacy.ethereum_networkVersion eth)));
        [|destruct (negb isProd && Legacy.loosely_equals_one StringToNumber
                                     (Legacy.ethereum_networkVersion eth));
          [|destruct sent]];
        repeat split; reflexivity.
    + repeat split; reflexivity.
Qed.

End LegacyService.

(** ** Both services *)

Section BothServices.
Import JS.

Example toHexString_one_ether :
  Units.toHexString 1000000000000000000 = "0x0de0b6b3a7640000".
Proof. reflexivity. Qed.

(** C2, as amended. When the intent is production and the chain id of
    the current network is not 1 (or no network is known), or the intent
    is a test and the chain id is 1, [requestSendTransaction] is rejected
    with an [Error] whose message names the network class it expected,
    [mainnet] or [testnet], and leaves the service untouched: no signer
    is acquired and nothing is sent. The older [sendTransaction] makes the
    same check on the wallet's [networkVersion] and asks the wallet
    nothing either, but its own [catch] turns the thrown message into a
    console line and the call resolves with [undefined]. *)
Theorem wrong_network_is_refused_before_any_wallet_call :
  (forall (w : Service.world) (parseEther : string -> thrown + Z)
          (toHexString : Z -> string) (isProd : bool)
          (toAdress amountETH : string) (s : Service.state),
      isProd = negb (Service.is_mainnet
                       (option_map Service.chainId (Service.network s))) ->
      exists message s',
        Service.requestSendTransaction w parseEther toHexString
          isProd toAdress amountETH s
        = (Rejected (Error message), s')
        /\ includes (if isProd then "mainnet" else "testnet") message = true
        /\ s' = s
        /\ Service.requests (Service.since s s') = [])
  /\ (forall (w : Legacy.world) (StringToNumber : string -> number)
             (eth : Legacy.Ethereum) (isProd : bool)
             (fromAddress toAdress : string) (amountETH : number)
             (s : Legacy.state),
         Legacy.ethereum w = Some eth ->
         isProd = negb (Legacy.loosely_equals_one StringToNumber
                          (Legacy.ethereum_networkVersion eth)) ->
         exists text s',
           Legacy.sendTransaction w StringToNumber isProd fromAddress toAdress
             amountETH s
           = (Resolved Undefined, s')
           /\ Legacy.since s s' = [Legacy.console_log text]
           /\ includes (if isProd then "mainnet" else "testnet") text = true
           /\ Legacy.requests (Legacy.since s s') = []).
Proof.
  split.
  - intros w parseEther toHexString isProd toAdress amountETH s H.
    eexists. exists s.
    split; [apply requestSendTransaction_wrong_network; exact H|].
    split; [destruct isProd; reflexivity|].
    split; [reflexivity | rewrite since_refl; reflexivity].
  - intros w StringToNumber eth isProd fromAddress toAdress amountETH s He H.
    do 2 eexists.
    split; [apply legacy_sendTransaction_wrong_network with (eth := eth); assumption|].
    erewrite legacy_since_app by (cbn [Legacy.trace Legacy.record]; reflexivity).
    split; [reflexivity|]. split; [destruct isProd|]; reflexivity.
Qed.

Lemma wrong_network_is_refused_on_ropsten :
  exists message s',
    Service.requestSendTransaction Sample.accepting Units.parseEther
      Units.toHexString true "0xB0b" "1.5" (Sample.connected Sample.ropsten)
    = (Rejected (Error message), s')
    /\ includes "mainnet" message = true
    /\ s' = Sample.connected Sample.ropsten
    /\ Service.requests (Service.since (Sample.connected Sample.ropsten) s') = [].
Proof.
  exact (proj1 wrong_network_is_refused_before_any_wallet_call
           Sample.accepting Units.parseEther Units.toHexString true
           "0xB0b" "1.5" (Sample.connected Sample.ropsten) eq_refl).
Defined.

(** The older service, asked for a production transfer while the wallet
    is on Ropsten: the call is no failure, it resolves with [undefined]. *)
Lemma legacy_wrong_network_is_not_a_failure :
  let run :=
    Legacy.sendTransaction Sample.legacy_approving Legacy.StringToNumber_digits
      true "0xA11ce" "0xB0b" (number_of_Z 1) (Legacy.MetaMaskService true) in
  Legacy.loosely_equals_one Legacy.StringToNumber_digits (Str "3") = false
  /\ fst run = Resolved Undefined
  /\ ~ (exists e, fst run = Rejected e).
Proof.
  split; [vm_compute; reflexivity|]. split; [vm_compute; reflexivity|].
  intros [e H]. vm_compute in H. discriminate H.
Qed.

(** C9, as amended. In the reactive service every failure of a call that
    [requestLogin] or [requestSendTransaction] awaits, from the wallet or
    from the backend, is the rejection of the operation itself, unchanged;
    the operation stops there (at most one failure per run) and asks
    nothing twice. The older [signMessage] and [sendTransaction] do not
    retry either (at most one failure per run, nothing asked twice), but
    they catch every failure and resolve, [signMessage] with [null] and
    [sendTransaction] with [undefined]; the last thing they do is to write
    the failure to the console, after [Unable to sign: ] and
    [Unable to send transaction: ]. *)
Theorem errors_propagate_in_the_reactive_service_only :
  (forall (w : Service.world) (s s' : Service.state) (r : outcome (option string)),
      Service.requestLogin w s = (r, s') ->
      (forall e, In e (Service.raised (Service.since s s')) -> r = Rejected e)
      /\ (List.length (Service.raised (Service.since s s')) <= 1)%nat
      /\ NoDup (Service.requests (Service.since s s')))
  /\ (forall (w : Service.world) (parseEther : string -> thrown + Z)
             (toHexString : Z -> string) (isProd : bool)
             (toAdress amountETH : string) (s s' : Service.state)
             (r : outcome string),
         Service.requestSendTransaction w parseEther toHexString
           isProd toAdress amountETH s = (r, s') ->
         (forall e, In e (Service.raised (Service.since s s')) -> r = Rejected e)
         /\ (List.length (Service.raised (Service.since s s')) <= 1)%nat
         /\ NoDup (Service.requests (Service.since s s')))
  /\ (forall (w : Legacy.world) (message : string) (s : Legacy.state),
         exists answer s',
           Legacy.signMessage w message s = (Resolved answer, s')
           /\ (Legacy.raised (Legacy.since s s') <> [] -> answer = None)
           /\ (forall e, In e (Legacy.raised (Legacy.since s s')) ->
               exists before,
                 Legacy.since s s'
                 = before ++ [Legacy.console_log
                                ("Unable to sign: " ++ thrown_to_string e)])
           /\ (List.length (Legacy.raised (Legacy.since s s')) <= 1)%nat
           /\ NoDup (Legacy.requests (Legacy.since s s')))
  /\ (forall (w : Legacy.world) (StringToNumber : string -> number)
             (isProd : bool) (fromAddress toAdress : string)
             (amountETH : number) (s : Legacy.state),
         exists answer s',
           Legacy.sendTransaction w StringToNumber isProd fromAddress toAdress
             amountETH s = (Resolved answer, s')
           /\ (Legacy.raised (Legacy.since s s') <> [] -> answer = Undefined)
           /\ (forall e, In e (Legacy.raised (Legacy.since s s')) ->
               exists before,
                 Legacy.since s s'
                 = before ++ [Legacy.console_log
                                ("Unable to send transaction: "
                                 ++ thrown_to_string e)])
           /\ (List.length (Legacy.raised (Legacy.since s s')) <= 1)%nat
           /\ NoDup (Legacy.requests (Legacy.since s s'))).
Proof.
  split; [|split; [|split]].
  - intros w s s' r H. exact (requestLogin_propagates w s r s' H).
  - intros w parseEther toHexString isProd toAdress amountETH s s' r H.
    exact (requestSendTransaction_propagates parseEther toHexString
             w isProd toAdress amountETH s s' r H).
  - intros w message s. apply legacy_signMessage_resolves.
  - intros w StringToNumber isProd fromAddress toAdress amountETH s.
    apply legacy_sendTransaction_resolves.
Qed.

(** A user who declines to sign: the login is rejected with the wallet's
    own error. *)
Lemma declined_signature_rejects_the_login :
  let run := Service.requestLogin Sample.declining (Sample.connected Sample.ropsten) in
  Service.raised (Service.since (Sample.connected Sample.ropsten) (snd run))
  = [Wallet_error 4001 "User denied message signature."]
  /\ fst run = Rejected (Wallet_error 4001 "User denied message signature.").
Proof.
  split; [vm_compute; reflexivity|].
  apply (proj1 (proj1 errors_propagate_in_the_reactive_service_only
                  Sample.declining (Sample.connected Sample.ropsten)
                  (snd (Service.requestLogin Sample.declining
                          (Sample.connected Sample.ropsten)))
                  (fst (Service.requestLogin Sample.declining
                          (Sample.connected Sample.ropsten)))
                  (surjective_pairing _))).
  vm_compute. left. reflexivity.
Defined.

(** The same user in front of the older service: the wallet's error is
    raised, and [signMessage] resolves with [null]. *)
Lemma legacy_signMessage_swallows_the_wallet_error :
  let run :=
    Legacy.signMessage Sample.legacy_declining "abc123" (Legacy.MetaMaskService true) in
  Legacy.raised (Legacy.trace (snd run))
  = [Wallet_error 4001 "User denied message signature."]
  /\ fst run = Resolved None
  /\ ~ (forall e, In e (Legacy.raised (Legacy.trace (snd run))) ->
                  fst run = Rejected e).
Proof.
  split; [vm_compute; reflexivity|]. split; [vm_compute; reflexivity|].
  intros H. vm_compute in H.
  specialize (H (Wallet_error 4001 "User denied message signature.")
                (or_introl eq_refl)).
  discriminate H.
Qed.

(** C10. The confirmation check against the backend is a constant: for
    every transaction hash it resolves with [null], no receipt, and does
    nothing else, in the reactive service and in the older one alike. *)
Theorem backend_confirmation_is_always_null :
  forall (txhash : string) (s : Service.state) (l : Legacy.state),
    Service.checkTransactionConfirmationFromBackend txhash s = (Resolved Null, s)
    /\ Legacy.checkTransactionConfirmationFromBackend txhash l = (Resolved Null, l).
Proof. intros txhash s l. split; reflexivity. Qed.

(** C3, on the older service. [sendTransaction] converts the amount by
    one binary64 multiplication, and the product is rounded. For the
    amount 1.1 (the number that the literal denotes lies within half a
    unit in the last place of 11/10) the wallet is asked to send
    1100000000000000128 base units, where the decimal 1.1 is exactly
    1100000000000000000. For the amount 1.000003814697265625, which
    binary64 holds exactly and which has 18 fractional digits, it is asked
    to send 1000003814697265664 in place of 1000003814697265625. *)
Theorem legacy_conversion_is_a_rounded_product :
  let run :=
    Legacy.sendTransaction Sample.legacy_approving Legacy.StringToNumber_digits
      false "0xA11ce" "0xB0b" Sample.one_point_one (Legacy.MetaMaskService true) in
  (Z.abs (4953959590107546 * 10 - 11 * 2 ^ 52) * 2 <= 10
   /\ Sample.one_point_one = S754_finite false 4953959590107546 (-52))
  /\ fst run = Resolved (Str "0x7a")
  /\ (exists params,
        Legacy.requests (Legacy.trace (snd run)) = [Legacy.eth_sendTransaction params]
        /\ Legacy.value params = Legacy.toString (Legacy.amountWEIDec Sample.one_point_one) 16)
  /\ integer_of_number (Legacy.amountWEIDec Sample.one_point_one)
     = Some 1100000000000000128
  /\ Units.parseEther "1.1" = inr 1100000000000000000
  /\ (Sample.one_and_a_bit = S754_finite false 4503616807239680 (-52)
      /\ 4503616807239680 * 10 ^ 18 = 1000003814697265625 * 2 ^ 52)
  /\ integer_of_number (Legacy.amountWEIDec Sample.one_and_a_bit)
     = Some 1000003814697265664
  /\ Units.parseEther "1.000003814697265625" = inr 1000003814697265625.
Proof.
  repeat split; try (vm_compute; reflexivity).
  - vm_compute. discriminate.
  - eexists. split; vm_compute; reflexivity.
Qed.

End BothServices.

(** ** Display units and base units: the conversion and its inverse *)

Section Conversion.
Import JS Units.
Local Open Scope string_scope.

Lemma length_app (s t : string) :
  String.length (s ++ t) = (String.length s + String.length t)%nat.
Proof. induction s as [|c s IH]; simpl; auto. Qed.

Lemma app_empty_r (s : string) : s ++ "" = s.
Proof. induction s as [|c s IH]; simpl; congruence. Qed.

Lemma length_zeros k : String.length (zeros k) = k.
Proof. induction k; simpl; auto. Qed.

Lemma all_digits_app s t : all_digits (s ++ t) = all_digits s && all_digits t.
Proof.
  induction s as [|c s IH]; simpl; auto. rewrite IH, andb_assoc. reflexivity.
Qed.

(** *** Positional value *)

Lemma digits_value_app acc s t :
  digits_value acc (s ++ t) = digits_value (digits_value acc s) t.
Proof. revert acc. induction s as [|c s IH]; intros acc; simpl; auto. Qed.

Lemma digits_value_zeros acc k :
  digits_value acc (zeros k) = acc * 10 ^ Z.of_nat k.
Proof.
  revert acc. induction k as [|k IH]; intros acc.
  - simpl. lia.
  - cbn [zeros digits_value]. rewrite IH.
    change (digit_value "0") with 0.
    rewrite Nat2Z.inj_succ, Z.pow_succ_r by lia. ring.
Qed.

(** *** Trailing zeros *)

Lemma trim_trailing_zeros_spec s :
  exists k, s = trim_trailing_zeros s ++ zeros k.
Proof.
  induction s as [|c s [k IH]].
  - exists O. reflexivity.
  - cbn [trim_trailing_zeros].
    destruct (trim_trailing_zeros s) as [|c' kept] eqn:E.
    + simpl in IH. destruct (Ascii.eqb c "0") eqn:C.
      * apply Ascii.eqb_eq in C. subst c. exists (S k). simpl. congruence.
      * exists k. simpl. congruence.
    + exists k. simpl. simpl in IH. congruence.
Qed.

Lemma all_digits_trim s : all_digits s = true -> all_digits (trim_trailing_zeros s) = true.
Proof.
  intros H. destruct (trim_trailing_zeros_spec s) as [k E].
  rewrite E, all_digits_app in H. apply andb_true_iff in H. tauto.
Qed.

(** *** Splitting at the point *)

Lemma digit_is_no_point c : is_digit c = true -> Ascii.eqb c "." = false.
Proof.
  intros H. destruct (Ascii.eqb c ".") eqn:E; auto.
  apply Ascii.eqb_eq in E. subst c. discriminate H.
Qed.

Lemma digit_is_no_minus c : is_digit c = true -> c <> "-"%char.
Proof. intros H ->. discriminate H. Qed.

Lemma split_digits s : all_digits s = true -> split s = [s].
Proof.
  induction s as [|c s IH]; simpl; auto. intros H.
  apply andb_true_iff in H. destruct H as [Hc Hs].
  rewrite (digit_is_no_point c Hc), (IH Hs). reflexivity.
Qed.

Lemma split_digits_point w rest :
  all_digits w = true -> split (w ++ String "." rest) = w :: split rest.
Proof.
  induction w as [|c w IH]; simpl; auto. intros H.
  apply andb_true_iff in H. destruct H as [Hc Hw].
  rewrite (digit_is_no_point c Hc), (IH Hw). reflexivity.
Qed.

Lemma decimal_chars_digits s : all_digits s = true -> decimal_chars s = true.
Proof.
  induction s as [|c s IH]; simpl; auto. intros H.
  apply andb_true_iff in H. destruct H as [Hc Hs].
  rewrite Hc, (IH Hs). reflexivity.
Qed.

Lemma decimal_chars_app s t : decimal_chars (s ++ t) = decimal_chars s && decimal_chars t.
Proof.
  induction s as [|c s IH]; simpl; auto. rewrite IH, andb_assoc. reflexivity.
Qed.

(** *** From a numeral to base units *)

Lemma pow10_pos k : 0 < 10 ^ Z.of_nat k.
Proof. apply Z.pow_pos_nonneg; lia. Qed.

Lemma parse_magnitude_numeral w f :
  all_digits w = true -> all_digits f = true -> w <> "" ->
  (String.length f <= decimals)%nat ->
  parse_magnitude (w ++ (if String.eqb f "" then "" else "." ++ f))
  = inr (digits_value 0 w * multiplier
         + digits_value 0 f * 10 ^ Z.of_nat (decimals - String.length f)).
Proof.
  intros Hw Hf Hne Hlen.
  destruct w as [|c w]; [congruence|]. clear Hne.
  assert (Hc : is_digit c = true).
  { cbn [all_digits] in Hw. apply andb_true_iff in Hw. tauto. }
  unfold parse_magnitude.
  destruct (String.eqb f "") eqn:Ef.
  - apply String.eqb_eq in Ef. subst f. rewrite app_empty_r.
    rewrite (decimal_chars_digits _ Hw).
    replace (String.eqb (String c w) "") with false by reflexivity.
    replace (String.eqb (String c w) ".") with false.
    2:{ symmetry. apply String.eqb_neq. intros E. injection E as -> _. discriminate Hc. }
    cbn [negb orb].
    rewrite (split_digits _ Hw). cbn [trim_trailing_zeros String.length Nat.ltb Nat.leb].
    cbn [append]. rewrite digits_value_zeros. reflexivity.
  - assert (Hd : decimal_chars (String c w ++ "." ++ f) = true).
    { rewrite decimal_chars_app, (decimal_chars_digits _ Hw). cbn [andb decimal_chars append].
      rewrite (decimal_chars_digits _ Hf). reflexivity. }
    rewrite Hd.
    replace (String.eqb (String c w ++ "." ++ f) "") with false by reflexivity.
    replace (String.eqb (String c w ++ "." ++ f) ".") with false.
    2:{ symmetry. apply String.eqb_neq. cbn [append]. intros E.
        injection E as -> _. discriminate Hc. }
    cbn [negb orb].
    change ("." ++ f) with (String "." f).
    rewrite (split_digits_point _ f Hw), (split_digits _ Hf).
    destruct (trim_trailing_zeros_spec f) as [k E].
    set (tf := trim_trailing_zeros f) in *.
    assert (Hl : String.length f = (String.length tf + k)%nat).
    { rewrite E at 1. rewrite length_app, length_zeros. reflexivity. }
    replace (decimals <? String.length tf)%nat with false.
    2:{ symmetry. apply Nat.ltb_ge. lia. }
    f_equal. f_equal.
    rewrite digits_value_app, digits_value_zeros.
    assert (V : digits_value 0 f = digits_value 0 tf * 10 ^ Z.of_nat k).
    { rewrite E at 1. rewrite digits_value_app, digits_value_zeros. reflexivity. }
    rewrite V, <- Z.mul_assoc, <- Z.pow_add_r by lia.
    f_equal. f_equal. lia.
Qed.

Lemma well_formed_parts d :
  well_formed d = true ->
  all_digits (whole d) = true /\ all_digits (fraction d) = true /\ whole d <> "".
Proof.
  unfold well_formed. intros H.
  apply andb_true_iff in H. destruct H as [H Hne].
  apply andb_true_iff in H. destruct H as [Hw Hf].
  repeat split; auto.
  intros E. rewrite E in Hne. discriminate Hne.
Qed.

Lemma parseEther_print d :
  well_formed d = true ->
  (String.length (fraction d) <= decimals)%nat ->
  parseEther (print d)
  = inr (let magnitude :=
           digits_value 0 (whole d) * multiplier
           + digits_value 0 (fraction d)
             * 10 ^ Z.of_nat (decimals - String.length (fraction d)) in
         if negative d then - magnitude else magnitude).
Proof.
  intros H Hlen. destruct (well_formed_parts d H) as (Hw & Hf & Hne).
  pose proof (parse_magnitude_numeral _ _ Hw Hf Hne Hlen) as P.
  destruct d as [neg w f]. cbn [negative whole fraction] in *.
  unfold print. cbn [negative whole fraction].
  destruct neg.
  - cbn [append] in *. unfold parseEther.
    replace (Ascii.eqb "-" "-") with true by reflexivity.
    rewrite P. reflexivity.
  - cbn [append]. destruct w as [|c w]; [congruence|].
    unfold parseEther. cbn [append] in *.
    replace (Ascii.eqb c "-") with false.
    + exact P.
    + symmetry. apply Ascii.eqb_neq. apply digit_is_no_minus.
      cbn [all_digits] in Hw. apply andb_true_iff in Hw. tauto.
Qed.

(** *** The value of a numeral, scaled *)

Lemma value_scaled d :
  (String.length (fraction d) <= decimals)%nat ->
  Qeq (Qmult (value d) (inject_Z multiplier))
      (inject_Z (let magnitude :=
                   digits_value 0 (whole d) * multiplier
                   + digits_value 0 (fraction d)
                     * 10 ^ Z.of_nat (decimals - String.length (fraction d)) in
                 if negative d then - magnitude else magnitude)).
Proof.
  intros Hlen. unfold value, Qeq, inject_Z, multiplier. cbn [Qnum Qden Qmult].
  set (k := String.length (fraction d)) in *.
  rewrite Pos.mul_1_r, Z2Pos.id by apply pow10_pos.
  replace (Z.of_nat decimals) with (Z.of_nat k + Z.of_nat (decimals - k)) by lia.
  rewrite Z.pow_add_r by lia.
  destruct (negative d); ring.
Qed.

(** *** From base units to a numeral *)

Lemma digit_char_spec d :
  0 <= d < 10 ->
  is_digit (digit_char d) = true /\ digit_value (digit_char d) = d.
Proof.
  intros H.
  assert (C : d = 0 \/ d = 1 \/ d = 2 \/ d = 3 \/ d = 4 \/ d = 5 \/ d = 6
              \/ d = 7 \/ d = 8 \/ d = 9) by lia.
  repeat (destruct C as [-> | C]; [split; reflexivity|]).
  subst d. split; reflexivity.
Qed.

Lemma length_digits_of n z : String.length (digits_of n z) = n.
Proof.
  revert z. induction n as [|n IH]; intros z; cbn [digits_of]; auto.
  rewrite length_app, IH. simpl. lia.
Qed.

Lemma all_digits_digits_of n z : all_digits (digits_of n z) = true.
Proof.
  revert z. induction n as [|n IH]; intros z; cbn [digits_of]; auto.
  rewrite all_digits_app, IH. cbn [all_digits andb].
  destruct (digit_char_spec (z mod 10)) as [D _].
  - apply Z.mod_pos_bound. lia.
  - rewrite D. reflexivity.
Qed.

Lemma digits_value_digits_of n z :
  digits_value 0 (digits_of n z) = z mod 10 ^ Z.of_nat n.
Proof.
  revert z. induction n as [|n IH]; intros z.
  - simpl. rewrite Z.mod_1_r. reflexivity.
  - cbn [digits_of]. rewrite digits_value_app, IH. cbn [digits_value].
    destruct (digit_char_spec (z mod 10)) as [_ D].
    { apply Z.mod_pos_bound. lia. }
    rewrite D, Nat2Z.inj_succ, Z.pow_succ_r by lia.
    rewrite Z.rem_mul_r by (pose proof (pow10_pos n); lia).
    ring.
Qed.

Lemma strip_leading_zeros_spec s :
  all_digits s = true ->
  all_digits (strip_leading_zeros s) = true
  /\ digits_value 0 (strip_leading_zeros s) = digits_value 0 s
  /\ (s <> "" -> strip_leading_zeros s <> "").
Proof.
  induction s as [|c s IH]; intros H.
  - repeat split; auto.
  - destruct s as [|c' s'].
    + repeat split; auto; discriminate.
    + cbn [strip_leading_zeros]. destruct (Ascii.eqb c "0") eqn:C.
      * apply Ascii.eqb_eq in C. subst c.
        cbn [all_digits] in H. apply andb_true_iff in H. destruct H as [_ H].
        destruct (IH H) as (A & V & N). repeat split; auto.
        intros _. apply N. discriminate.
      * repeat split; auto.
Qed.

Lemma Z_toString_spec z :
  0 <= z ->
  all_digits (Z_toString z) = true
  /\ digits_value 0 (Z_toString z) = z
  /\ Z_toString z <> "".
Proof.
  intros Hz. unfold Z_toString.
  set (n := S (Z.to_nat (Z.log2 z))).
  destruct (strip_leading_zeros_spec (digits_of n z) (all_digits_digits_of n z))
    as (A & V & N).
  repeat split; auto.
  - rewrite V, digits_value_digits_of. apply Z.mod_small. split; [exact Hz|].
    assert (L : z < 2 ^ Z.of_nat n).
    { subst n. rewrite Nat2Z.inj_succ, Z2Nat.id by apply Z.log2_nonneg.
      destruct (Z.eq_dec z 0) as [-> | Hnz]; [reflexivity|].
      apply Z.log2_spec. lia. }
    assert (M : 2 ^ Z.of_nat n <= 10 ^ Z.of_nat n) by (apply Z.pow_le_mono_l; lia).
    lia.
  - apply N. intros E. apply (f_equal String.length) in E.
    rewrite length_digits_of in E. discriminate E.
Qed.

Lemma formatEther_print wei :
  exists d,
    formatEther wei = print d
    /\ well_formed d = true
    /\ fraction d <> ""
    /\ (String.length (fraction d) <= decimals)%nat
    /\ (let magnitude :=
          digits_value 0 (whole d) * multiplier
          + digits_value 0 (fraction d)
            * 10 ^ Z.of_nat (decimals - String.length (fraction d)) in
        if negative d then - magnitude else magnitude) = wei.
Proof.
  set (r := Z.abs wei mod multiplier).
  set (tf := trim_trailing_zeros (digits_of decimals r)).
  assert (Hm : 0 < multiplier) by (apply pow10_pos).
  assert (Hr : 0 <= r < multiplier) by (apply Z.mod_pos_bound; exact Hm).
  destruct (Z_toString_spec (Z.abs wei / multiplier)) as (WA & WV & WN).
  { apply Z.div_pos; lia. }
  destruct (trim_trailing_zeros_spec (digits_of decimals r)) as [j E].
  fold tf in E.
  assert (TA : all_digits tf = true)
    by (apply all_digits_trim, all_digits_digits_of).
  assert (TL : decimals = (String.length tf + j)%nat).
  { rewrite <- (length_digits_of decimals r), E, length_app, length_zeros.
    reflexivity. }
  assert (TV : r = digits_value 0 tf * 10 ^ Z.of_nat j).
  { rewrite <- (Z.mod_small r multiplier) at 1 by exact Hr.
    unfold multiplier. rewrite <- digits_value_digits_of, E.
    rewrite digits_value_app, digits_value_zeros. reflexivity. }
  assert (S : (if (wei <? 0)%Z then - Z.abs wei else Z.abs wei) = wei).
  { destruct (Z.ltb_spec wei 0); lia. }
  assert (DM : Z.abs wei = Z.abs wei / multiplier * multiplier + r).
  { unfold r. rewrite Z.mul_comm. apply Z.div_mod. lia. }
  exists {| negative := (wei <? 0)%Z;
            whole := Z_toString (Z.abs wei / multiplier);
            fraction := if String.eqb tf "" then "0" else tf |}.
  unfold formatEther, print, well_formed. cbn [negative whole fraction].
  fold r. fold tf.
  destruct (String.eqb tf "") eqn:T.
  - apply String.eqb_eq in T. rewrite T in *.
    repeat split.
    + rewrite WA. cbn [all_digits andb].
      destruct (String.eqb (Z_toString (Z.abs wei / multiplier)) "") eqn:W;
        [apply String.eqb_eq in W; contradiction | reflexivity].
    + discriminate.
    + simpl. unfold decimals. lia.
    + rewrite WV. cbn [digits_value] in TV |- *. change (digit_value "0") with 0.
      match goal with
      | |- (if _ then - ?M else ?M) = _ =>
          replace M with (Z.abs wei)
            by (etransitivity; [exact DM|]; rewrite TV; ring)
      end.
      exact S.
  - repeat split.
    + rewrite T. reflexivity.
    + rewrite WA, TA. cbn [andb].
      destruct (String.eqb (Z_toString (Z.abs wei / multiplier)) "") eqn:W;
        [apply String.eqb_eq in W; contradiction | reflexivity].
    + apply String.eqb_neq. exact T.
    + lia.
    + rewrite WV. replace (decimals - String.length tf)%nat with j by lia.
      rewrite <- TV.
      match goal with
      | |- (if _ then - ?M else ?M) = _ => replace M with (Z.abs wei) by exact DM
      end.
      exact S.
Qed.

Lemma parseEther_formatEther wei : parseEther (formatEther wei) = inr wei.
Proof.
  destruct (formatEther_print wei) as (d & E & W & _ & L & V).
  rewrite E, (parseEther_print d W L), V. reflexivity.
Qed.

(** *** Reading and printing numerals *)

Lemma split_not_nil s : split s <> [].
Proof.
  destruct s as [|c s]; cbn [split]; [discriminate|].
  destruct (Ascii.eqb c "."); [discriminate|].
  destruct (split s); discriminate.
Qed.

Lemma split_inversion s :
  (forall w, split s = [w] -> s = w)
  /\ (forall w f, split s = [w; f] -> s = w ++ String "." f).
Proof.
  induction s as [|c s [IH1 IH2]].
  - split; intros; cbn [split] in *; [congruence | discriminate].
  - cbn [split]. destruct (Ascii.eqb c ".") eqn:C.
    + apply Ascii.eqb_eq in C. subst c. split.
      * intros w H. injection H as _ H. destruct (split_not_nil s H).
      * intros w f H. injection H as <- H. rewrite (IH1 f H). reflexivity.
    + destruct (split s) as [|h t] eqn:E; [destruct (split_not_nil s E)|]. split.
      * intros w H. injection H as <- ->. rewrite (IH1 h eq_refl). reflexivity.
      * intros w f H. injection H as <- ->. rewrite (IH2 h f eq_refl). reflexivity.
Qed.

Lemma read_unsigned_sound neg body d :
  read_unsigned neg body = Some d ->
  well_formed d = true
  /\ negative d = neg
  /\ body = whole d ++ (if String.eqb (fraction d) "" then "" else "." ++ fraction d).
Proof.
  unfold read_unsigned. destruct (split_inversion body) as [I1 I2].
  destruct (split body) as [|w [|f [|x l]]]; try discriminate.
  - destruct (well_formed _) eqn:W; [|discriminate].
    intros H. injection H as <-. cbn [negative whole fraction].
    repeat split; auto. rewrite (I1 w eq_refl). cbn [String.eqb].
    rewrite app_empty_r. reflexivity.
  - destruct (well_formed _) eqn:W; [|discriminate].
    destruct (String.eqb f "") eqn:F; [discriminate|].
    intros H. injection H as <-. cbn [negative whole fraction].
    repeat split; auto. rewrite F. exact (I2 w f eq_refl).
Qed.

Lemma read_sound s d : read s = Some d -> s = print d /\ well_formed d = true.
Proof.
  unfold read, print. destruct s as [|c rest]; [discriminate|].
  destruct (Ascii.eqb c "-") eqn:C; intros H;
    destruct (read_unsigned_sound _ _ _ H) as (W & N & B).
  - apply Ascii.eqb_eq in C. subst c. rewrite N, <- B. auto.
  - rewrite N, <- B. auto.
Qed.

Lemma read_unsigned_print neg w f :
  well_formed {| negative := neg; whole := w; fraction := f |} = true ->
  read_unsigned neg (w ++ (if String.eqb f "" then "" else "." ++ f))
  = Some {| negative := neg; whole := w; fraction := f |}.
Proof.
  intros W. destruct (well_formed_parts _ W) as (Hw & Hf & Hne).
  cbn [whole fraction] in *. unfold read_unsigned.
  destruct (String.eqb f "") eqn:F.
  - apply String.eqb_eq in F. subst f.
    rewrite app_empty_r, (split_digits _ Hw), W. reflexivity.
  - change ("." ++ f) with (String "." f).
    rewrite (split_digits_point _ f Hw), (split_digits _ Hf), W, F. reflexivity.
Qed.

Lemma read_print d : well_formed d = true -> read (print d) = Some d.
Proof.
  intros W. destruct (well_formed_parts _ W) as (Hw & _ & Hne).
  destruct d as [neg w f]. cbn [whole fraction] in *.
  pose proof (read_unsigned_print neg w f W) as R.
  unfold print. cbn [negative whole fraction]. destruct neg.
  - cbn [append]. unfold read.
    replace (Ascii.eqb "-" "-") with true by reflexivity. exact R.
  - cbn [append]. destruct w as [|c w]; [congruence|].
    unfold read. cbn [append] in *.
    replace (Ascii.eqb c "-") with false; [exact R|].
    symmetry. apply Ascii.eqb_neq. apply digit_is_no_minus.
    cbn [all_digits] in Hw. apply andb_true_iff in Hw. tauto.
Qed.

(** C4. For every decimal string with at most 18 digits after the point,
    the conversion to base units succeeds and gives exactly the value of
    the string times [10^18]; converting that integer back gives a
    decimal string with the same value. *)
Theorem conversion_round_trip :
  forall (s : string) (d : decimal),
    read s = Some d ->
    (String.length (fraction d) <= decimals)%nat ->
    exists (wei : Z) (d' : decimal),
      parseEther s = inr wei
      /\ Qeq (inject_Z wei) (Qmult (value d) (inject_Z multiplier))
      /\ read (formatEther wei) = Some d'
      /\ Qeq (value d') (value d).
Proof.
  intros s d R L. destruct (read_sound s d R) as [-> W].
  pose proof (parseEther_print d W L) as P.
  pose proof (value_scaled d L) as V.
  set (wei := let magnitude :=
                 digits_value 0 (whole d) * multiplier
                 + digits_value 0 (fraction d)
                   * 10 ^ Z.of_nat (decimals - String.length (fraction d)) in
               if negative d then - magnitude else magnitude) in *.
  destruct (formatEther_print wei) as (d' & E & W' & _ & L' & V').
  pose proof (value_scaled d' L') as S'. cbv zeta in V', S'. rewrite V' in S'.
  exists wei, d'. repeat split.
  - exact P.
  - symmetry. exact V.
  - rewrite E. apply read_print. exact W'.
  - apply (Qmult_inj_r _ _ (inject_Z multiplier)).
    + intros Z0. unfold Qeq in Z0. cbn [Qnum Qden inject_Z] in Z0.
      pose proof (pow10_pos decimals). unfold multiplier in Z0. lia.
    + rewrite S', V. reflexivity.
Qed.

Lemma conversion_round_trip_one_and_a_half :
  exists (wei : Z) (d' : decimal),
    parseEther "1.5" = inr wei
    /\ Qeq (inject_Z wei)
           (Qmult (value {| negative := false; whole := "1"; fraction := "5" |})
                  (inject_Z multiplier))
    /\ read (formatEther wei) = Some d'
    /\ Qeq (value d')
           (value {| negative := false; whole := "1"; fraction := "5" |}).
Proof.
  exact (conversion_round_trip "1.5"
           {| negative := false; whole := "1"; fraction := "5" |}
           eq_refl (proj1 (Nat.leb_le 1 18) eq_refl)).
Defined.

(** The example of the specification, as strings and integers. *)
Example one_and_a_half_ether :
  parseEther "1.5" = inr 1500000000000000000
  /\ formatEther 1500000000000000000 = "1.5"
  /\ decimal_value "1.50" = Some (Qmake 150 100)
  /\ parseEther "1.50" = inr 1500000000000000000.
Proof. repeat split; vm_compute; reflexivity. Qed.

(** More than 18 significant digits after the point are refused, not
    rounded. *)
Example nineteen_digits_are_refused :
  parseEther "0.0000000000000000001"
  = inl (Error "fractional component exceeds decimals").
Proof. vm_compute. reflexivity. Qed.

End Conversion.

(** ** The streams follow the fields *)

Section StreamInvariant.
Import JS Service Streams.

Lemma account_held_app h t1 t2 :
  account_held h (t1 ++ t2) = account_held (account_held h t1) t2.
Proof.
  revert h. induction t1 as [|e t1 IH]; intros h; [reflexivity|].
  destruct e; simpl; apply IH.
Qed.

Lemma network_held_app h t1 t2 :
  network_held h (t1 ++ t2) = network_held (network_held h t1) t2.
Proof.
  revert h. induction t1 as [|e t1 IH]; intros h; [reflexivity|].
  destruct e; simpl; apply IH.
Qed.

Lemma isAuthenticated_held_app h t1 t2 :
  isAuthenticated_held h (t1 ++ t2)
  = isAuthenticated_held (isAuthenticated_held h t1) t2.
Proof.
  revert h. induction t1 as [|e t1 IH]; intros h; [reflexivity|].
  destruct e; simpl; apply IH.
Qed.

Ltac held :=
  unfold current, set_account, set_network, set_isAuthenticated, record;
  cbn [trace _account _network _isAuthenticated];
  rewrite ?account_held_app, ?network_held_app, ?isAuthenticated_held_app;
  cbn [account_held network_held isAuthenticated_held].

Lemma current_record e s :
  match e with
  | network_next _ | account_next _ | isAuthenticated_next _ => False
  | _ => True
  end ->
  current s -> current (record e s).
Proof.
  intros He (A & N & I). destruct e; try contradiction; held; auto.
Qed.

Lemma current_set_account a s : current s -> current (set_account a s).
Proof. intros (A & N & I). held. auto. Qed.

Lemma current_set_network n s : current s -> current (set_network n s).
Proof. intros (A & N & I). held. auto. Qed.

Lemma current_set_isAuthenticated b s : current s -> current (set_isAuthenticated b s).
Proof. intros (A & N & I). held. auto. Qed.

Lemma current_handle ev s : current s -> current (handle ev s).
Proof.
  intros C. destruct ev as [accounts | chainId | r |]; cbn [handle].
  - unfold onAccountsChanged. apply current_set_isAuthenticated.
    destruct accounts as [[|a [|b l]]|]; cbn [List.length Nat.ltb Nat.leb];
      repeat first [ apply current_set_account
                   | apply current_record; [exact I|] ];
      exact C.
  - unfold onChainChanged. cbn [provider record].
    destruct (provider s);
      repeat (apply current_record; [exact I|]); exact C.
  - unfold getNetwork_then. destruct r;
      repeat first [ apply current_set_network
                   | apply current_record; [exact I|] ];
      exact C.
  - apply current_set_isAuthenticated. exact C.
Qed.

Lemma current_deliver evs s : current s -> current (deliver evs s).
Proof.
  revert s. induction evs as [|ev evs IH]; intros s C; [exact C|].
  change (deliver (ev :: evs) s) with (deliver evs (handle ev s)).
  apply IH, current_handle, C.
Qed.

Lemma keeps_ret {A} (a : A) : keeps (ret a).
Proof. intros s C. exact C. Qed.

Lemma keeps_throw {A} (e : thrown) : keeps (@throw state A e).
Proof. intros s C. exact C. Qed.

Lemma keeps_gets {A} (f : state -> A) : keeps (gets f).
Proof. intros s C. exact C. Qed.

Lemma keeps_modify (f : state -> state) :
  (forall s, current s -> current (f s)) -> keeps (modify f).
Proof. intros H s C. apply H, C. Qed.

Lemma keeps_bind {A B} (m : M A) (k : A -> M B) :
  keeps m -> (forall a, keeps (k a)) -> keeps (bind m k).
Proof.
  intros Hm Hk s C. unfold bind. specialize (Hm s C).
  destruct (m s) as [[a|e] s1]; cbn [snd] in *; [apply Hk, Hm | exact Hm].
Qed.

Lemma keeps_await {A} (c : call) (r : reply A) : keeps (await c r).
Proof.
  intros s C. unfold await. cbn [snd].
  apply current_record; [exact I|]. apply current_deliver.
  apply current_record; [exact I|]. exact C.
Qed.

Ltac keep :=
  repeat first
    [ apply keeps_ret
    | apply keeps_throw
    | apply keeps_gets
    | apply keeps_await
    | apply keeps_modify; intros ? ?;
      first [ apply current_set_isAuthenticated; assumption
            | apply current_record; [exact I | assumption] ]
    | apply keeps_bind; [|intros ?]
    | match goal with
      | |- keeps (match ?x with _ => _ end) => destruct x
      | |- keeps (if ?b then _ else _) => destruct b
      end ].

Lemma keeps_requestLogin w : keeps (requestLogin w).
Proof.
  unfold requestLogin, getSigner, requestAccount, generateNonce, verifyMessage.
  cbv zeta. keep.
Qed.

Lemma keeps_requestSendTransaction w parseEther toHexString isProd toAdress amountETH :
  keeps (requestSendTransaction w parseEther toHexString isProd toAdress amountETH).
Proof.
  unfold requestSendTransaction, getSigner, requestAccount. keep.
Qed.

Lemma keeps_checkTransactionConfirmation w txHash :
  keeps (checkTransactionConfirmation w txHash).
Proof. unfold checkTransactionConfirmation. keep. Qed.

Lemma current_constructed installed : current (MetaMaskService installed).
Proof. destruct installed; repeat split. Qed.

(** X1. In every state of the service, reached from the constructor
    through any wallet events, logins, submissions and confirmation
    checks, each stream holds the value of its field: [account$] the
    account, [network$] the network, [isAuthenticated$] the flag, and
    [isConnected$] what [isConnected] answers. *)
Theorem streams_hold_the_fields :
  forall s : state,
    reachable s ->
    account_held None (trace s) = Some (account s)
    /\ network_held None (trace s) = Some (network s)
    /\ isAuthenticated_held None (trace s) = Some (isAuthenticated s)
    /\ isConnected_held (trace s) = Some (isConnected s).
Proof.
  intros s R.
  assert (C : current s).
  { induction R.
    - apply current_constructed.
    - apply current_handle, IHR.
    - apply keeps_requestLogin, IHR.
    - apply keeps_requestSendTransaction, IHR.
    - apply keeps_checkTransactionConfirmation, IHR.
    - exact IHR. }
  destruct C as (A & N & I). repeat split; auto.
  unfold isConnected_held, isConnected, account. rewrite A. reflexivity.
Qed.

Lemma streams_hold_the_fields_after_a_refused_login :
  let s := snd (requestLogin Sample.refusing (Sample.connected Sample.ropsten)) in
  account_held None (trace s) = Some (account s)
  /\ network_held None (trace s) = Some (network s)
  /\ isAuthenticated_held None (trace s) = Some (isAuthenticated s)
  /\ isConnected_held (trace s) = Some (isConnected s).
Proof.
  apply streams_hold_the_fields.
  apply logged_in.
  apply (handled (getNetwork_settled (Resolved Sample.ropsten))).
  apply (handled (accountsChanged (Some ["0xA11ce"]))).
  apply constructed.
Defined.

End StreamInvariant.

(** ** Sample runs of the operations *)

Section SampleRuns.
Import JS.

Lemma requestSendTransaction_sends_on_ropsten :
  let s := Sample.connected Sample.ropsten in
  let run :=
    Service.requestSendTransaction Sample.accepting Units.parseEther
      Units.toHexString false "0xB0b" "1.5" s in
  fst run = Resolved "0x7a"
  /\ Service.requests (Service.since s (snd run))
     = [Service.eth_requestAccounts;
        Service.sendTransaction "0xB0b" (Units.toHexString 1500000000000000000)].
Proof.
  exact (requestSendTransaction_sends Units.parseEther Units.toHexString
           Sample.accepting false "0xB0b" "1.5" (Sample.connected Sample.ropsten)
           _ _ ["0xA11ce"] 1500000000000000000 {| Service.hash := "0x7a" |}
           (surjective_pairing _) eq_refl eq_refl eq_refl eq_refl eq_refl).
Defined.

Lemma requestSendTransaction_invalid_amount_sample :
  let s := Sample.connected Sample.ropsten in
  let run :=
    Service.requestSendTransaction Sample.accepting Units.parseEther
      Units.toHexString false "0xB0b" "one and a half" s in
  fst run = Rejected (Error "invalid decimal value")
  /\ Service.requests (Service.since s (snd run)) = [Service.eth_requestAccounts].
Proof.
  exact (requestSendTransaction_invalid_amount Units.parseEther Units.toHexString
           Sample.accepting false "0xB0b" "one and a half"
           (Sample.connected Sample.ropsten)
           _ _ ["0xA11ce"] (Error "invalid decimal value")
           (surjective_pairing _) eq_refl eq_refl eq_refl eq_refl).
Defined.

Lemma requestSendTransaction_without_provider_sample :
  Service.requestSendTransaction Sample.accepting Units.parseEther
    Units.toHexString false "0xB0b" "one and a half" (Service.MetaMaskService false)
  = (Rejected (Error "Could not send transaction"), Service.MetaMaskService false).
Proof.
  exact (requestSendTransaction_without_provider Units.parseEther Units.toHexString
           Sample.accepting false "0xB0b" "one and a half"
           (Service.MetaMaskService false) eq_refl eq_refl).
Defined.

Lemma requestSendTransaction_unknown_network_sample :
  exists rest,
    Service.requests
      (Service.since (Service.MetaMaskService true)
         (snd (Service.requestSendTransaction Sample.accepting Units.parseEther
                 Units.toHexString false "0xB0b" "1.5"
                 (Service.MetaMaskService true))))
    = Service.eth_requestAccounts :: rest.
Proof.
  exact (requestSendTransaction_unknown_network Units.parseEther Units.toHexString
           Sample.accepting false "0xB0b" "1.5" (Service.MetaMaskService true)
           _ _ (surjective_pairing _) eq_refl eq_refl).
Defined.

Lemma legacy_signMessage_signs_sample :
  exists s',
    Legacy.signMessage Sample.legacy_approving "abc123" (Legacy.MetaMaskService true)
    = (Resolved (Some ("0x5160", "0xA11ce")), s')
    /\ Legacy.since (Legacy.MetaMaskService true) s'
       = [Legacy.request Legacy.eth_requestAccounts;
          Legacy.settled Legacy.eth_requestAccounts None;
          Legacy.request (Legacy.signer_signMessage "abc123");
          Legacy.settled (Legacy.signer_signMessage "abc123") None;
          Legacy.request Legacy.signer_getAddress;
          Legacy.settled Legacy.signer_getAddress None].
Proof.
  exact (legacy_signMessage_signs Sample.legacy_approving
           {| Legacy.isMetaMask := true; Legacy.ethereum_networkVersion := Str "3" |}
           "abc123" (Legacy.MetaMaskService true) ["0xA11ce"] "0x5160" "0xA11ce"
           eq_refl eq_refl eq_refl eq_refl).
Defined.

Lemma legacy_sendTransaction_sends_sample :
  exists s',
    Legacy.sendTransaction Sample.legacy_approving Legacy.StringToNumber_digits
      false "0xA11ce" "0xB0b" (number_of_Z 2) (Legacy.MetaMaskService true)
    = (Resolved (Str "0x7a"), s')
    /\ Legacy.requests (Legacy.since (Legacy.MetaMaskService true) s')
       = [Legacy.eth_sendTransaction
            {| Legacy.nonce := "0x00";
               Legacy.to := "0xB0b";
               Legacy.from := "0xA11ce";
               Legacy.value := Legacy.toString (Legacy.amountWEIDec (number_of_Z 2)) 16;
               Legacy.data :=
                 "0x7f7465737432000000000000000000000000000000000000000000000000000000600057";
               Legacy.chainId := "0x3" |}].
Proof.
  exact (legacy_sendTransaction_sends Legacy.StringToNumber_digits
           Sample.legacy_approving
           {| Legacy.isMetaMask := true; Legacy.ethereum_networkVersion := Str "3" |}
           false "0xA11ce" "0xB0b" (number_of_Z 2) (Legacy.MetaMaskService true)
           (Str "0x7a") eq_refl
           ltac:(vm_compute; reflexivity) eq_refl).
Defined.

Lemma legacy_operations_without_a_wallet_sample :
  (exists text,
     Legacy.signMessage Scene.legacy_without_wallet "abc123" (Legacy.MetaMaskService false)
     = (Resolved None,
        Legacy.record (Legacy.console_log text) (Legacy.MetaMaskService false))
     /\ includes "TypeError" text = true)
  /\ (exists text,
        Legacy.sendTransaction Scene.legacy_without_wallet
          Legacy.StringToNumber_digits true "0xA11ce" "0xB0b" (number_of_Z 2)
          (Legacy.MetaMaskService false)
        = (Resolved Undefined,
           Legacy.record (Legacy.console_log text) (Legacy.MetaMaskService false))
        /\ includes "TypeError" text = true).
Proof.
  exact (legacy_operations_without_a_wallet Legacy.StringToNumber_digits
           Scene.legacy_without_wallet true "abc123" "0xA11ce" "0xB0b"
           (number_of_Z 2) (Legacy.MetaMaskService false) eq_refl).
Defined.

Lemma submission_reads_only_provider_and_network_sample :
  fst (Service.requestSendTransaction Sample.accepting Units.parseEther
         Units.toHexString false "0xB0b" "1.5" (Sample.connected Sample.ropsten))
  = fst (Service.requestSendTransaction Sample.accepting Units.parseEther
           Units.toHexString false "0xB0b" "1.5"
           (snd (Service.requestLogin Scene.switching
                   (Sample.connected Sample.ropsten)))).
Proof.
  exact (submission_reads_only_provider_and_network
           Units.parseEther Units.toHexString Sample.accepting false "0xB0b" "1.5"
           (Sample.connected Sample.ropsten)
           (snd (Service.requestLogin Scene.switching
                   (Sample.connected Sample.ropsten)))
           ltac:(vm_compute; reflexivity) ltac:(vm_compute; reflexivity)).
Defined.

End SampleRuns.

(** ** The older service: whole amounts and plain queries *)

Section LegacyQueriesProperties.
Import JS.

Lemma whole_amounts_spec (bound : nat) (n : Z) :
  0 <= n <= Z.of_nat bound -> In n (LegacyQueries.whole_amounts bound).
Proof.
  intros H. unfold LegacyQueries.whole_amounts.
  rewrite <- (Z2Nat.id n) by lia. apply in_map, in_seq. lia.
Qed.

(** X19. For every whole number of ether from 0 to 2362 the product
    [amountETH * Math.pow(10, 18)] of the older service is the exact number
    of base units; 2363 is the first whole amount that it rounds, to
    2363000000000000262144. *)
Theorem legacy_conversion_is_exact_up_to_2362_ether :
  forall n : Z,
    0 <= n <= 2362 ->
    integer_of_number (Legacy.amountWEIDec (number_of_Z n)) = Some (n * 10 ^ 18)
    /\ integer_of_number (Legacy.amountWEIDec (number_of_Z 2363))
       = Some (2363 * 10 ^ 18 + 262144).
Proof.
  intros n H. split; [|vm_compute; reflexivity].
  assert (A : forallb LegacyQueries.exact_on (LegacyQueries.whole_amounts 2362) = true)
    by (vm_compute; reflexivity).
  rewrite forallb_forall in A.
  specialize (A n (whole_amounts_spec 2362 n H)).
  unfold LegacyQueries.exact_on in A.
  destruct (integer_of_number (Legacy.amountWEIDec (number_of_Z n))) as [wei|];
    [|discriminate A].
  apply Z.eqb_eq in A. rewrite A. reflexivity.
Qed.

Lemma legacy_conversion_is_exact_for_100_ether :
  integer_of_number (Legacy.amountWEIDec (number_of_Z 100)) = Some (100 * 10 ^ 18)
  /\ integer_of_number (Legacy.amountWEIDec (number_of_Z 2363))
     = Some (2363 * 10 ^ 18 + 262144).
Proof.
  apply (legacy_conversion_is_exact_up_to_2362_ether 100). lia.
Defined.

(** X20. The plain queries of the older service have no [catch]: each makes
    one request and its result is the collaborator's outcome, a rejection
    included. The two that go to the wallet fail with a [TypeError], and ask
    nothing, on a page without a wallet. *)
Theorem legacy_queries_hand_back_the_outcome :
  forall (w : Legacy.world) (s : Legacy.state) (txhash message address signature : string)
         (accounts : outcome (list string)) (receipt nonce verdict : outcome JS.value),
    (match Legacy.ethereum w with
     | Some _ =>
         fst (LegacyQueries.requestMetaMaskAddress w accounts s) = accounts
         /\ Legacy.requests
              (Legacy.since s (snd (LegacyQueries.requestMetaMaskAddress w accounts s)))
            = [Legacy.eth_accounts]
         /\ fst (LegacyQueries.checkTransactionConfirmation w receipt txhash s) = receipt
         /\ Legacy.requests
              (Legacy.since s
                 (snd (LegacyQueries.checkTransactionConfirmation w receipt txhash s)))
            = [Legacy.eth_getTransactionReceipt txhash]
     | None =>
         LegacyQueries.requestMetaMaskAddress w accounts s
         = (Rejected (TypeError "Cannot read properties of undefined (reading 'request')"), s)
         /\ LegacyQueries.checkTransactionConfirmation w receipt txhash s
            = (Rejected (TypeError "Cannot read properties of undefined (reading 'request')"), s)
     end)
    /\ fst (LegacyQueries.generateNonce nonce s) = nonce
    /\ Legacy.requests (Legacy.since s (snd (LegacyQueries.generateNonce nonce s)))
       = [Legacy.GET_generatenonce]
    /\ fst (LegacyQueries.verifyMessage verdict message address signature s) = verdict
    /\ Legacy.requests
         (Legacy.since s
            (snd (LegacyQueries.verifyMessage verdict message address signature s)))
       = [Legacy.GET_verify_message message address signature].
Proof.
  intros w s txhash message address signature accounts receipt nonce verdict.
  unfold LegacyQueries.requestMetaMaskAddress, LegacyQueries.checkTransactionConfirmation,
    LegacyQueries.generateNonce, LegacyQueries.verifyMessage,
    Legacy.window_ethereum, Legacy.await, bind, ret, throw.
  assert (S2 : forall c f,
             Legacy.requests
               (Legacy.since s (Legacy.record (Legacy.settled c f)
                                  (Legacy.record (Legacy.request c) s))) = [c]).
  { intros c f. erewrite legacy_since_app
      by (cbn [Legacy.trace Legacy.record]; rewrite <- app_assoc; reflexivity).
    reflexivity. }
  split; [destruct (Legacy.ethereum w)|].
  - destruct accounts, receipt; cbn [fst snd failure]; rewrite ?S2; auto.
  - split; reflexivity.
  - destruct nonce, verdict; cbn [fst snd failure]; rewrite ?S2; auto.
Qed.

End LegacyQueriesProperties.
